(** * mpsync: a shallow embedding of [src/mpsync.py]

    The class [MPSync] pushes a local directory tree to a MicroPython board
    through an [MpFileExplorer] object.  The methods are embedded as
    computations in a small state-and-exception monad: the state holds the
    [MPSync] object and the chronological log of everything the program
    printed or asked of the board; the board, the explorer constructors and
    the local file system are the environment. *)

From Stdlib Require Import String Ascii List Arith Bool Lia.
From Stdlib Require Import Decimal DecimalString.
Import ListNotations.
Open Scope string_scope.

Set Implicit Arguments.

(** ** Python strings *)

Module Str.

(** [s[n:]] *)
Fixpoint drop (n : nat) (s : string) : string :=
  match n, s with
  | O, _ => s
  | S _, EmptyString => EmptyString
  | S k, String _ s' => drop k s'
  end.

(** [s[:n]] *)
Fixpoint take (n : nat) (s : string) : string :=
  match n, s with
  | O, _ => EmptyString
  | S _, EmptyString => EmptyString
  | S k, String c s' => String c (take k s')
  end.

(** [s.find(sub)], with [None] for Python's [-1]. *)
Fixpoint find (sub s : string) : option nat :=
  if prefix sub s then Some 0
  else match s with
       | EmptyString => None
       | String _ s' => option_map S (find sub s')
       end.

(** [s.replace("", new)]: [new] goes before every character and at the
    end. *)
Fixpoint around (new s : string) : string :=
  match s with
  | EmptyString => new
  | String c s' => new ++ String c (around new s')
  end.

(** The scan of [s.replace(old, new)] for a non-empty [old]: left to
    right, and a match consumes [old] (the next [skip] characters belong
    to a match already replaced), so occurrences never overlap. *)
Fixpoint replace_scan (old new : string) (skip : nat) (s : string) : string :=
  match s with
  | EmptyString => EmptyString
  | String c s' =>
      match skip with
      | S k => replace_scan old new k s'
      | O =>
          if prefix old s
          then new ++ replace_scan old new (pred (String.length old)) s'
          else String c (replace_scan old new 0 s')
      end
  end.

(** [s.replace(old, new)] (no count: every occurrence). *)
Definition replace (old new s : string) : string :=
  match old with
  | EmptyString => around new s
  | String _ _ => replace_scan old new 0 s
  end.

(** [s.replace(old, new, 1)]: the first occurrence only.  The program
    never calls it; it is what "remove the first literal occurrence"
    says. *)
Definition replace_first (old new s : string) : string :=
  match find old s with
  | Some i => take i s ++ new ++ drop (i + String.length old) s
  | None => s
  end.

(** [sep.join(xs)] *)
Fixpoint join (sep : string) (xs : list string) : string :=
  match xs with
  | [] => EmptyString
  | [x] => x
  | x :: rest => x ++ sep ++ join sep rest
  end.

(** [s.lstrip("/")] together with the number of slashes removed. *)
Fixpoint lstrip_slash (s : string) : nat * string :=
  match s with
  | String "/" s' => let (n, r) := lstrip_slash s' in (S n, r)
  | _ => (0, s)
  end.

(** [s.split("/")] *)
Fixpoint split_slash (s : string) : list string :=
  match s with
  | EmptyString => [EmptyString]
  | String "/" s' => EmptyString :: split_slash s'
  | String c s' =>
      match split_slash s' with
      | [] => [String c EmptyString]
      | x :: xs => String c x :: xs
      end
  end.

(** [str(i)] for a natural number. *)
Definition of_nat (i : nat) : string :=
  NilZero.string_of_uint (Nat.to_uint i).

End Str.

(** ** [pathlib.PosixPath] *)

(** A pure POSIX path: its root (empty, one slash or two) and its
    components. *)
Record PosixPath : Type := mkPath {
  root : string;
  names : list string
}.

Module Path.

(** [PosixPath(s)]: one or at least three leading slashes make the root
    ["/"], exactly two make ["//"]; empty and ["."] components are
    dropped. *)
Definition of_string (s : string) : PosixPath :=
  let (n, rest) := Str.lstrip_slash s in
  let rt := match n with
            | 0 => ""
            | 2 => "//"
            | _ => "/"
            end in
  mkPath rt
    (filter (fun x => negb (String.eqb x "" || String.eqb x "."))
            (Str.split_slash rest)).

(** [p.as_posix()], which on POSIX is [str(p)]. *)
Definition as_posix (p : PosixPath) : string :=
  match root p, names p with
  | EmptyString, [] => "."
  | r, ns => r ++ Str.join "/" ns
  end.

(** [p / name], the way [glob] builds the entries of [p]. *)
Definition child (p : PosixPath) (name : string) : PosixPath :=
  mkPath (root p) (names p ++ [name]).


End Path.

(** ** Exceptions, the explorer object, the log *)

(** Modelled from the spec: [RemoteIOError] comes from [mp.mpfexp], which is
    not part of the sources; the interface of the remote file system says
    that a make-directory request can fail with a distinguishable "already
    exists" case among the remote I/O errors.  The class of the error
    records which. *)
Inductive remote_fault : Type :=
| DirectoryExists
| OtherFault.

(** The exception classes the program names, with the message [str(e)]
    gives; [Exception] stands for the base class and everything else. *)
Inductive exn : Type :=
| RemoteIOError (c : remote_fault) (msg : string)
| PyboardError (msg : string)
| ConError (msg : string)
| AttributeError (msg : string)
| Exception (msg : string).

Definition str (e : exn) : string :=
  match e with
  | RemoteIOError _ m | PyboardError m | ConError m
  | AttributeError m | Exception m => m
  end.

Definition is_RemoteIOError (e : exn) : bool :=
  match e with RemoteIOError _ _ => true | _ => false end.

(** [except (PyboardError, ConError, AttributeError)] *)
Definition is_connect_error (e : exn) : bool :=
  match e with
  | PyboardError _ | ConError _ | AttributeError _ => true
  | _ => false
  end.

(** An [MpFileExplorer] or [MpFileExplorerCaching] object, as far as the
    program looks at it: its identity, its truth value ([if self.explorer])
    and its [sysname]. *)
Record MpFileExplorer : Type := mkExplorer {
  oid : nat;
  truthy : bool;
  sysname : string
}.

(** The methods of an explorer that the program calls. *)
Inductive request : Type :=
| put (file : PosixPath) (dst : string)
| md (dst : string)
| rm (dst : string)
| close.

(** What the outside sees, in order: a printed line, the construction of an
    explorer ([caching] tells which class), a method call on an explorer.
    A call is logged when it is issued, whether it returns or raises. *)
Inductive event : Type :=
| Print (line : string)
| New (caching : bool) (address : string) (reset : bool)
| Call (o : MpFileExplorer) (r : request).

Inductive result (A : Type) : Type :=
| Return (a : A)
| Raise (e : exn).
Arguments Return {A} a.
Arguments Raise {A} e.

(** The environment: the local file system as far as [connect] asks it, the
    explorer constructors and the board behind an explorer.  Every answer
    may depend on all that happened before. *)
Record World : Type := mkWorld {
  path_exists : PosixPath -> bool;
  path_is_dir : PosixPath -> bool;
  construct : list event -> bool -> string -> bool -> result MpFileExplorer;
  respond : list event -> MpFileExplorer -> request -> option exn
}.

(** ** The class [MPSync] *)

Record MPSync : Type := mkMPSync {
  folder : string;
  port : string;
  reset : bool;
  caching : bool;
  _explorer : option MpFileExplorer;
  verbose : bool;
  _error : list string;
  _ts : nat
}.

Definition CONNECT_TRIES : nat := 5.
Definition MPF_PROTOCOL : string := "ser".

(** [MPSync(folder, port, verbose, reset, caching)] with the defaults of
    [__init__] spelled out by the caller. *)
Definition __init__ (folder port : string) (verbose reset caching : bool)
  : MPSync :=
  mkMPSync folder port reset caching None verbose [] 0.

Definition set_explorer (h : option MpFileExplorer) (s : MPSync) : MPSync :=
  mkMPSync (folder s) (port s) (reset s) (caching s) h (verbose s)
    (_error s) (_ts s).

(** ** The monad *)

Record state : Type := mkState {
  self : MPSync;
  out : list event
}.

Definition M (A : Type) : Type := state -> result A * state.

Definition ret {A} (a : A) : M A := fun st => (Return a, st).

Definition raise {A} (e : exn) : M A := fun st => (Raise e, st).

Definition bind {A B} (m : M A) (k : A -> M B) : M B :=
  fun st =>
    match m st with
    | (Return a, st') => k a st'
    | (Raise e, st') => (Raise e, st')
    end.

Notation "x <- m ;; k" := (bind m (fun x => k))
  (at level 61, m at next level, right associativity).
Notation "m >> k" := (bind m (fun _ => k))
  (at level 61, right associativity).

(** [try: body / except <classes> as e: handler(e)] *)
Definition try_except {A} (body : M A) (classes : exn -> bool)
  (handler : exn -> M A) : M A :=
  fun st =>
    match body st with
    | (Raise e, st') => if classes e then handler e st' else (Raise e, st')
    | r => r
    end.

Definition emit (e : event) : M unit :=
  fun st => (Return tt, mkState (self st) (out st ++ [e])).

Definition print (line : string) : M unit := emit (Print line).

Definition get_self : M MPSync := fun st => (Return (self st), st).

Definition assign_explorer (h : option MpFileExplorer) : M unit :=
  fun st => (Return tt, mkState (set_explorer h (self st)) (out st)).

(** [for x in xs: body(x)] *)
Definition for_each {A} (body : A -> M unit) : list A -> M unit :=
  fix loop (xs : list A) : M unit :=
    match xs with
    | [] => ret tt
    | x :: rest => body x >> loop rest
    end.

(** ** The local tree *)

(** What [f.glob("*")] yields, in the order the file system reports it: an
    entry for which [is_dir()] holds comes with what globbing it yields in
    turn, an entry for which [is_file()] holds is a [File], and anything
    else (a socket, a device, a dangling link) is [Other]. *)
#[warnings="-register-all"]
Inductive node : Type :=
| File (name : string)
| Dir (name : string) (children : list node)
| Other (name : string).

Definition is_dir (e : node) : bool :=
  match e with Dir _ _ => true | _ => false end.

Definition is_file (e : node) : bool :=
  match e with File _ => true | _ => false end.

(** ** The methods *)

(** What the property [explorer] raises on a session without handle. *)
Definition unconnected : exn := Exception "unconnected, please connect!".

(** The directory [sync(f)] starts from: a path is never false, so
    [not f] is [f is None]. *)
Definition start_dir (s : MPSync) (f : option PosixPath) : PosixPath :=
  match f with
  | None => Path.of_string (folder s)
  | Some p => p
  end.

Section Methods.

Variable W : World.

(** [o.<method>(...)]: logged, then answered by the board. *)
Definition invoke (o : MpFileExplorer) (r : request) : M unit :=
  fun st =>
    let st' := mkState (self st) (out st ++ [Call o r]) in
    match respond W (out st) o r with
    | None => (Return tt, st')
    | Some e => (Raise e, st')
    end.

(** [MpFileExplorerCaching(address, reset=reset)] when [c], else
    [MpFileExplorer(address, reset=reset)]. *)
Definition instantiate (c : bool) (address : string) (rs : bool)
  : M MpFileExplorer :=
  fun st =>
    (construct W (out st) c address rs,
     mkState (self st) (out st ++ [New c address rs])).

(** The property [explorer]. *)
Definition explorer : M MpFileExplorer :=
  s <- get_self ;;
  match _explorer s with
  | None => raise unconnected
  | Some o => ret o
  end.

(** [p.as_posix().replace(self.folder, "")], the expression the three
    methods below start with. *)
Definition remote_path (s : MPSync) (p : PosixPath) : string :=
  Str.replace (folder s) "" (Path.as_posix p).

Definition _copy_file (file : PosixPath) : M unit :=
  s <- get_self ;;
  let dst := remote_path s file in
  print ("Copying " ++ dst) >>
  o <- explorer ;;
  invoke o (put file dst).

Definition _create_folder (d : PosixPath) : M unit :=
  s <- get_self ;;
  let dst := remote_path s d in
  print ("Creating folder " ++ dst) >>
  try_except (o <- explorer ;; invoke o (md dst))
    is_RemoteIOError
    (fun e => print (str e)).

Definition _delete (path : PosixPath) : M unit :=
  s <- get_self ;;
  let dst := remote_path s path in
  print ("Deleting " ++ dst) >>
  o <- explorer ;;
  invoke o (rm dst).

Definition disconnect : M bool :=
  s <- get_self ;;
  match _explorer s with
  | Some o =>
      try_except
        (invoke o close >> assign_explorer None >> ret true)
        is_RemoteIOError
        (fun e => print (str e) >> ret false)
  | None => ret false
  end.

(** [f"{self.MPF_PROTOCOL}:{self.port}"] *)
Definition address (s : MPSync) : string := MPF_PROTOCOL ++ ":" ++ port s.

(** The event of the construction the loop of [connect] asks for. *)
Definition construction (s : MPSync) : event :=
  New (caching s) (address s) (reset s).

(** The line printed after a failed attempt. *)
Definition attempt_line (s : MPSync) (i : nat) : string :=
  "could not connect to " ++ port s ++ " [" ++ Str.of_nat i ++ "/"
    ++ Str.of_nat CONNECT_TRIES ++ "]".

(** The body of [for i in range(...)] in [connect], over the indices left.
    [Some b] is [return b]; [None] is the loop running out. *)
Fixpoint attempts (indices : list nat) : M (option bool) :=
  match indices with
  | [] => ret None
  | i :: rest =>
      s <- get_self ;;
      o <- instantiate (caching s) (address s) (reset s) ;;
      assign_explorer (Some o) >>
      e <- explorer ;;
      if truthy e
      then e' <- explorer ;;
           print ("Connected to " ++ sysname e') >> ret (Some true)
      else print (attempt_line s i) >> attempts rest
  end.

Definition connect : M bool :=
  s <- get_self ;;
  let port_path := Path.of_string (port s) in
  r <- try_except
         (disconnect >>
          if negb (path_exists W port_path) || path_is_dir W port_path
          then print ("Port '" ++ port s ++ "' does not exist or is a folder!")
               >> ret (Some false)
          else attempts (seq 0 CONNECT_TRIES))
         is_connect_error
         (fun e => print (str e) >> ret None) ;;
  match r with
  | Some b => ret b
  | None =>
      print ("could not connect to board " ++ port s ++ "!") >> ret false
  end.

Definition __enter__ : M unit :=
  ok <- connect ;;
  if ok then ret tt else raise (Exception "can't connect").

Definition __exit__ : M unit :=
  ok <- disconnect ;;
  if ok then ret tt else raise (Exception "can't disconnect").

(** [with self: body].  [__exit__] returns [None] when it returns, so an
    exception of the body is raised again after it; an exception of
    [__exit__] itself replaces whatever the body did. *)
Definition with_ {A} (body : M A) : M A :=
  __enter__ >>
  fun st =>
    match body st with
    | (Return a, st1) => (__exit__ >> ret a) st1
    | (Raise e, st1) => (__exit__ >> raise e) st1
    end.

(** What the body of the loop in [sync(f)] does with one entry of [f]; the
    recursive call [self.sync(entry)] is the loop over the entries of
    [entry]. *)
Fixpoint sync_entry (f : PosixPath) (entry : node) {struct entry} : M unit :=
  match entry with
  | Dir n cs =>
      _create_folder (Path.child f n) >>
      for_each (sync_entry (Path.child f n)) cs
  | File n => _copy_file (Path.child f n)
  | Other _ => ret tt
  end.

(** [sync(f)] for a path [f], over what globbing [f] yields. *)
Definition walk (f : PosixPath) (entries : list node) : M unit :=
  for_each (sync_entry f) entries.

(** [sync(f=None)] *)
Definition sync (f : option PosixPath) (entries : list node) : M unit :=
  s <- get_self ;;
  walk (start_dir s f) entries.

(** [main()], given what [parse_args] returned, the working directory
    ([PosixPath().cwd().as_posix()]) and the tree below the folder.  The
    session is a fresh object; the log goes on. *)
Definition main (args_folder : option string) (args_port : string)
  (args_verbose : bool) (cwd : string) (entries : list node) : M unit :=
  fun st =>
    let folder :=
      match args_folder with
      | None => cwd
      | Some s => if String.eqb s "" then cwd else s
      end in
    with_
      (print ("Start syncing folder '" ++ folder ++ "' to board at '"
                ++ args_port ++ "'") >>
       sync None entries)
      (mkState (__init__ folder args_port args_verbose false false) (out st)).

End Methods.

(** ** Reading the log *)

(** What a run from [before] to [after] added to the log. *)
Definition emitted (before after : state) : list event :=
  skipn (List.length (out before)) (out after).

Definition is_New (e : event) : bool :=
  match e with New _ _ _ => true | _ => false end.

Definition is_Call (e : event) : bool :=
  match e with Call _ _ => true | _ => false end.

(** The number of explorer constructions in a log. *)
Definition attempts_made (l : list event) : nat :=
  List.length (filter is_New l).

(** The events a walk may add: lines, make-directory and put requests. *)
Definition creates_or_uploads (e : event) : bool :=
  match e with
  | Print _ | Call _ (md _) | Call _ (put _ _) => true
  | _ => false
  end.

(** A remove request. *)
Definition is_rm_call (e : event) : bool :=
  match e with Call _ (rm _) => true | _ => false end.

Definition is_md (r : request) : bool :=
  match r with md _ => true | _ => false end.

(** [obeys W h r new]: the events [new], logged after the history [h] by a
    run with the result [r], go with the answers of the board: after a
    make-directory request answered by a [RemoteIOError] comes the line of
    that error; a request answered by any other exception is the last
    event, and the run raises that exception. *)
Fixpoint obeys (W : World) (h : list event) (r : result unit)
  (new : list event) : Prop :=
  match new with
  | [] => True
  | ev :: rest =>
      match ev with
      | Call o rq =>
          match respond W h o rq with
          | None => True
          | Some e =>
              if is_md rq && is_RemoteIOError e
              then exists rest', rest = Print (str e) :: rest'
              else rest = [] /\ r = Raise e
          end
      | _ => True
      end
      /\ obeys W (h ++ [ev]) r rest
  end.



(** ** What the constructors answered *)

(** The answer to the construction that [connect] asks for on the session
    [s] after the history [h]. *)
Definition built (W : World) (s : MPSync) (h : list event)
  : result MpFileExplorer :=
  construct W h (caching s) (address s) (reset s).

(** Every construction among the events [l], logged after the history
    [h], raised. *)
Definition all_raised (W : World) (s : MPSync) (h l : list event) : Prop :=
  forall pre post,
    l = (pre ++ construction s :: post)%list ->
    exists e, built W s (h ++ pre) = Raise e.

(** ** What a walk is meant to ask *)

(** The requests of a walk in the order the loop reaches the entries: a
    directory is made, then its entries are dealt with; a file is put;
    anything else asks nothing.  [fld] is [self.folder]. *)
Fixpoint plan_entry (fld : string) (f : PosixPath) (e : node)
  : list request :=
  match e with
  | File n =>
      [put (Path.child f n)
           (Str.replace fld "" (Path.as_posix (Path.child f n)))]
  | Dir n cs =>
      md (Str.replace fld "" (Path.as_posix (Path.child f n)))
      :: flat_map (plan_entry fld (Path.child f n)) cs
  | Other _ => []
  end.

Definition plan (fld : string) (f : PosixPath) (entries : list node)
  : list request :=
  flat_map (plan_entry fld f) entries.

(** The requests to [o] that a run from [st] to [st'] with the result [r]
    added to the log are a beginning of [wanted], and all of it when the
    run returned; the run left the session object alone. *)
Definition follows_plan (o : MpFileExplorer) (wanted : list request)
  (st : state) (r : result unit) (st' : state) : Prop :=
  exists new rest,
    out st' = (out st ++ new)%list
    /\ self st' = self st
    /\ map (Call o) wanted = (filter is_Call new ++ rest)%list
    /\ (r = Return tt -> rest = []).

(** The tree without the entries that are neither file nor directory, at
    every depth. *)
Fixpoint prune_entry (e : node) : list node :=
  match e with
  | File n => [File n]
  | Dir n cs => [Dir n (flat_map prune_entry cs)]
  | Other _ => []
  end.

Definition prune (entries : list node) : list node :=
  flat_map prune_entry entries.

(** A board that takes every upload to [o] and refuses a make-directory
    request of [o] with nothing but a [RemoteIOError]. *)
Definition tolerant (W : World) (o : MpFileExplorer) : Prop :=
  (forall h file dst, respond W h o (put file dst) = None)
  /\ (forall h dst e,
        respond W h o (md dst) = Some e -> is_RemoteIOError e = true).

(** The events [connect] may add on a session [s] that held the handle
    [h]: lines, the construction its configuration asks for, and [close]
    on the handle held. *)
Definition connect_event (s : MPSync) (h : option MpFileExplorer)
  (e : event) : Prop :=
  match e with
  | Print _ => True
  | New _ _ _ => e = construction s
  | Call o rq => h = Some o /\ rq = close
  end.

(** ** Sample data for the examples below *)

Definition board0 : MpFileExplorer := mkExplorer 0 true "esp32".

(** A board that is there and never complains. *)
Definition quiet_world : World :=
  mkWorld (fun _ => true) (fun _ => false)
          (fun _ _ _ _ => Return board0)
          (fun _ _ _ => None).

(** A board whose [close] fails, behind a port nothing answers on. *)
Definition stuck_world : World :=
  mkWorld (fun _ => true) (fun _ => false)
          (fun _ _ _ _ => Raise (ConError "no board"))
          (fun _ _ r =>
             match r with
             | close => Some (RemoteIOError OtherFault "close failed")
             | _ => None
             end).

Definition husk : MpFileExplorer := mkExplorer 1 false "".

(** Constructors that hand out an object which tests false. *)
Definition dead_world : World :=
  mkWorld (fun _ => true) (fun _ => false)
          (fun _ _ _ _ => Return husk)
          (fun _ _ _ => None).

(** Constructors that hand out a false object twice, then a board. *)
Definition slow_world : World :=
  mkWorld (fun _ => true) (fun _ => false)
          (fun h _ _ _ =>
             if Nat.ltb (attempts_made h) 2 then Return husk else Return board0)
          (fun _ _ _ => None).

(** A board that connects but whose [close] fails. *)
Definition sticky_world : World :=
  mkWorld (fun _ => true) (fun _ => false)
          (fun _ _ _ _ => Return board0)
          (fun _ _ r =>
             match r with
             | close => Some (RemoteIOError OtherFault "close failed")
             | _ => None
             end).

(** A board that refuses every make-directory request for a reason other
    than the directory being there, and takes every file. *)
Definition grudging_world : World :=
  mkWorld (fun _ => true) (fun _ => false)
          (fun _ _ _ _ => Return board0)
          (fun _ _ r =>
             match r with
             | md _ => Some (RemoteIOError OtherFault "Invalid directory name")
             | _ => None
             end).

(** A board that fails every upload. *)
Definition brittle_world : World :=
  mkWorld (fun _ => true) (fun _ => false)
          (fun _ _ _ _ => Return board0)
          (fun _ _ r =>
             match r with
             | put _ _ => Some (RemoteIOError OtherFault "write failed")
             | _ => None
             end).

(** The tree [/r/{lib/a.py, main.py}] as globbing ["/r"] reports it. *)
Definition small_tree : list node :=
  [Dir "lib" [File "a.py"]; File "main.py"].

(** Constructors that hand out one false object, then lose the line. *)
Definition flaky_world : World :=
  mkWorld (fun _ => true) (fun _ => false)
          (fun h _ _ _ =>
             if Nat.ltb (attempts_made h) 1 then Return husk
             else Raise (ConError "line lost"))
          (fun _ _ _ => None).

(** Constructors that raise once and then hand out a board. *)
Definition recovering_world : World :=
  mkWorld (fun _ => true) (fun _ => false)
          (fun h _ _ _ =>
             if Nat.ltb (attempts_made h) 1
             then Raise (ConError "could not open port")
             else Return board0)
          (fun _ _ _ => None).

(** A tree with entries that are neither file nor directory. *)
Definition mixed_tree : list node :=
  [Other "fifo"; Dir "lib" [Other "sock"; File "a.py"]; File "main.py"].

(** No such port. *)
Definition portless_world : World :=
  mkWorld (fun _ => false) (fun _ => false)
          (fun _ _ _ _ => Return board0)
          (fun _ _ _ => None).

Definition fresh (folder : string) : state :=
  mkState (__init__ folder "/dev/ttyUSB0" false false false) [].

Definition connected (folder : string) : state :=
  mkState (set_explorer (Some board0)
             (__init__ folder "/dev/ttyUSB0" false false false)) [].

(** * Properties *)

(** ** The remote path *)

Example replace_every : Str.replace "ab" "" "xabyabz" = "xyz".
Proof. reflexivity. Qed.

Example replace_no_rescan : Str.replace "ab" "" "aabb" = "ab".
Proof. reflexivity. Qed.

Example replace_first_once : Str.replace_first "ab" "" "xabyabz" = "xyabz".
Proof. reflexivity. Qed.

Example of_string_norm :
  Path.as_posix (Path.of_string "/home//u/./proj/") = "/home/u/proj".
Proof. reflexivity. Qed.

Example of_string_two_slashes :
  Path.as_posix (Path.of_string "//srv/x") = "//srv/x"
  /\ Path.as_posix (Path.of_string "///srv/x") = "/srv/x"
  /\ Path.as_posix (Path.of_string "") = ".".
Proof. repeat split. Qed.

Example of_nat_5 : Str.of_nat 5 = "5".
Proof. reflexivity. Qed.

Lemma around_empty (s : string) : Str.around "" s = s.
Proof. induction s as [|c s IH]; simpl; [reflexivity | now rewrite IH]. Qed.

Lemma drop_0 (s : string) : Str.drop 0 s = s.
Proof. now destruct s. Qed.

Lemma replace_scan_skip (old new : string) (s : string) :
  forall n, Str.replace_scan old new n s
            = Str.replace_scan old new 0 (Str.drop n s).
Proof.
  induction s as [|c s IH]; intros [|n]; try reflexivity.
  simpl Str.drop. simpl Str.replace_scan at 1. apply IH.
Qed.

Lemma replace_scan_unfold (a : ascii) (old' new s : string) :
  Str.replace_scan (String a old') new 0 s =
    match Str.find (String a old') s with
    | None => s
    | Some i =>
        Str.take i s ++ new ++
        Str.replace_scan (String a old') new 0
          (Str.drop (i + String.length (String a old')) s)
    end.
Proof.
  set (old := String a old').
  induction s as [|c s IH].
  - reflexivity.
  - unfold Str.find; fold Str.find.
    unfold Str.replace_scan; fold Str.replace_scan.
    destruct (prefix old (String c s)) eqn:Hp.
    + simpl Str.take. rewrite replace_scan_skip. reflexivity.
    + rewrite IH. destruct (Str.find old s) as [i|]; reflexivity.
Qed.

Lemma replace_unfold (old s : string) :
  Str.replace old "" s =
    match Str.find old s with
    | None => s
    | Some i =>
        Str.take i s ++
        Str.replace old "" (Str.drop (i + String.length old) s)
    end.
Proof.
  destruct old as [|a old'].
  - simpl. destruct s; simpl; now rewrite ?around_empty.
  - unfold Str.replace. apply replace_scan_unfold.
Qed.

Lemma copy_file_log (W : World) (st : state) (o : MpFileExplorer)
  (file : PosixPath) :
  _explorer (self st) = Some o ->
  out (snd (_copy_file W file st))
  = (out st ++ [Print ("Copying " ++ remote_path (self st) file);
                Call o (put file (remote_path (self st) file))])%list.
Proof.
  intros Ho. unfold _copy_file, bind, get_self, print, emit, explorer, invoke.
  cbn. rewrite Ho. cbn.
  destruct (respond W _ o _); cbn; rewrite <- app_assoc; reflexivity.
Qed.

Lemma create_folder_log (W : World) (st : state) (o : MpFileExplorer)
  (d : PosixPath) :
  _explorer (self st) = Some o ->
  exists tail,
    out (snd (_create_folder W d st))
    = (out st ++ Print ("Creating folder " ++ remote_path (self st) d)
              :: Call o (md (remote_path (self st) d)) :: tail)%list.
Proof.
  intros Ho.
  unfold _create_folder, bind, get_self, print, emit, explorer, invoke,
    try_except.
  cbn. rewrite Ho. cbn.
  destruct (respond W _ o _) as [e|]; cbn.
  - destruct (is_RemoteIOError e); cbn.
    + exists [Print (str e)]. now rewrite <- !app_assoc.
    + exists []. now rewrite <- !app_assoc.
  - exists []. now rewrite <- !app_assoc.
Qed.

(** What the code does: the remote path handed to [put] and to [md] is the
    entry's path with every occurrence of the configured folder string
    removed, scanning from the left without overlap: what precedes the
    first occurrence is kept, the occurrence is dropped, and what follows
    it is treated the same way; a path without an occurrence is handed
    over unchanged. *)
Theorem remote_path_drops_every_occurrence
  (W : World) (st : state) (o : MpFileExplorer) (entry : PosixPath) :
  _explorer (self st) = Some o ->
  let root_text := folder (self st) in
  let local := Path.as_posix entry in
  let dst := Str.replace root_text "" local in
  out (snd (_copy_file W entry st))
    = (out st ++ [Print ("Copying " ++ dst); Call o (put entry dst)])%list
  /\ (exists tail,
        out (snd (_create_folder W entry st))
        = (out st ++ Print ("Creating folder " ++ dst)
                  :: Call o (md dst) :: tail)%list)
  /\ dst = match Str.find root_text local with
           | None => local
           | Some i =>
               Str.take i local ++
               Str.replace root_text ""
                 (Str.drop (i + String.length root_text) local)
           end.
Proof.
  intros Ho root_text local dst. split; [|split].
  - now apply copy_file_log.
  - now apply create_folder_log.
  - apply replace_unfold.
Qed.

Lemma remote_path_drops_every_occurrence_witness :
  let entry := Path.of_string "/r/lib/r.py" in
  out (snd (_copy_file quiet_world entry (connected "/r")))
    = [Print "Copying /lib.py"; Call board0 (put entry "/lib.py")]
  /\ Str.find "/r" "/r/lib/r.py" = Some 0
  /\ Str.replace "/r" "" "/lib/r.py" = "/lib.py".
Proof.
  intro entry.
  destruct (@remote_path_drops_every_occurrence quiet_world (connected "/r")
              board0 entry eq_refl) as (Hput & _ & _).
  split; [exact Hput | split; reflexivity].
Defined.

(** C1: the code departs from the claim.  Under the folder ["/r"] the
    entry ["/r/r/x"], whose path below the folder is ["/r/x"], is put and
    made at ["/x"]: [replace] without a count removes the second ["/r"]
    as well, while removing the first occurrence only leaves ["/r/x"]. *)
Lemma remote_path_not_first_occurrence_only :
  let entry := Path.of_string "/r/r/x" in
  Path.as_posix entry = "/r/r/x"
  /\ out (snd (_copy_file quiet_world entry (connected "/r")))
     = [Print "Copying /x"; Call board0 (put entry "/x")]
  /\ out (snd (_create_folder quiet_world entry (connected "/r")))
     = [Print "Creating folder /x"; Call board0 (md "/x")]
  /\ Str.replace_first "/r" "" (Path.as_posix entry) = "/r/x"
  /\ "/x" <> Str.replace_first "/r" "" (Path.as_posix entry).
Proof.
  intro entry. repeat split. vm_compute. discriminate.
Qed.

(** ** Running the monad *)

Lemma emitted_app (st st' : state) (new : list event) :
  out st' = (out st ++ new)%list -> emitted st st' = new.
Proof.
  intros H. unfold emitted. rewrite H. rewrite skipn_app, skipn_all.
  now rewrite Nat.sub_diag.
Qed.

Lemma emitted_same (st : state) : emitted st st = [].
Proof. apply emitted_app. now rewrite app_nil_r. Qed.

Lemma attempts_made_app (a b : list event) :
  attempts_made (a ++ b) = attempts_made a + attempts_made b.
Proof. unfold attempts_made. now rewrite filter_app, length_app. Qed.

(** ** [disconnect] *)

(** What [disconnect] does, by the handle and by the answer of [close]. *)
Lemma disconnect_unfold (W : World) (st : state) :
  disconnect W st =
    match _explorer (self st) with
    | None => (Return false, st)
    | Some o =>
        match respond W (out st) o close with
        | None =>
            (Return true,
             mkState (set_explorer None (self st)) (out st ++ [Call o close]))
        | Some e =>
            if is_RemoteIOError e
            then (Return false,
                  mkState (self st) (out st ++ [Call o close; Print (str e)]))
            else (Raise e, mkState (self st) (out st ++ [Call o close]))
        end
    end.
Proof.
  unfold disconnect, bind, get_self, try_except, invoke, assign_explorer,
    print, emit, ret.
  destruct st as [s l]; cbn.
  destruct (_explorer s) as [o|]; [|reflexivity]. cbn.
  destruct (respond W l o close) as [e|]; cbn; [|reflexivity].
  destruct (is_RemoteIOError e); cbn; [|reflexivity].
  now rewrite <- app_assoc.
Qed.

(** C7: without a handle [disconnect] returns [False], raises nothing and
    calls nothing; when [close] raises a [RemoteIOError] it prints the
    error, returns [False] and keeps the handle; when [close] returns it
    clears the handle and returns [True]. *)
Theorem disconnect_outcomes (W : World) (st : state) :
  (_explorer (self st) = None ->
   disconnect W st = (Return false, st))
  /\ (forall o c msg,
        _explorer (self st) = Some o ->
        respond W (out st) o close = Some (RemoteIOError c msg) ->
        fst (disconnect W st) = Return false
        /\ emitted st (snd (disconnect W st)) = [Call o close; Print msg]
        /\ self (snd (disconnect W st)) = self st
        /\ _explorer (self (snd (disconnect W st))) = Some o)
  /\ (forall o,
        _explorer (self st) = Some o ->
        respond W (out st) o close = None ->
        fst (disconnect W st) = Return true
        /\ emitted st (snd (disconnect W st)) = [Call o close]
        /\ _explorer (self (snd (disconnect W st))) = None).
Proof.
  rewrite disconnect_unfold. split; [|split].
  - intros ->. reflexivity.
  - intros o c msg Ho Hr. rewrite Ho, Hr. cbn. repeat split; trivial.
    now apply emitted_app.
  - intros o -> ->. cbn. repeat split. now apply emitted_app.
Qed.

Lemma disconnect_outcomes_witness :
  disconnect quiet_world (fresh ".") = (Return false, fresh ".")
  /\ (fst (disconnect stuck_world (connected ".")) = Return false
      /\ _explorer (self (snd (disconnect stuck_world (connected "."))))
         = Some board0)
  /\ (fst (disconnect quiet_world (connected ".")) = Return true
      /\ _explorer (self (snd (disconnect quiet_world (connected "."))))
         = None).
Proof.
  split; [|split].
  - apply (proj1 (disconnect_outcomes quiet_world (fresh "."))).
    reflexivity.
  - destruct (proj1 (proj2 (disconnect_outcomes stuck_world (connected ".")))
                board0 OtherFault "close failed" eq_refl eq_refl)
      as (H1 & _ & _ & H4).
    split; assumption.
  - destruct (proj2 (proj2 (disconnect_outcomes quiet_world (connected ".")))
                board0 eq_refl eq_refl)
      as (H1 & _ & H3).
    split; assumption.
Defined.

(** ** [connect] *)

Section Connect.

Variable W : World.

Lemma attempts_cons (i : nat) (rest : list nat) (st : state) :
  attempts W (i :: rest) st =
    let s := self st in
    match construct W (out st) (caching s) (address s) (reset s) with
    | Raise e => (Raise e, mkState s (out st ++ [construction s]))
    | Return o =>
        if truthy o
        then (Return (Some true),
              mkState (set_explorer (Some o) s)
                (out st ++ [construction s;
                            Print ("Connected to " ++ sysname o)]))
        else attempts W rest
               (mkState (set_explorer (Some o) s)
                  (out st ++ [construction s; Print (attempt_line s i)]))
    end.
Proof.
  destruct st as [s l].
  unfold attempts at 1; fold (attempts W).
  unfold bind, get_self, instantiate, assign_explorer, explorer, print, emit,
    ret, address, construction.
  cbn -[append attempt_line MPF_PROTOCOL].
  destruct (construct W l _ _ _) as [o|e]; [|reflexivity].
  cbn -[append attempt_line MPF_PROTOCOL].
  destruct (truthy o); cbn -[append attempt_line MPF_PROTOCOL];
    now rewrite <- app_assoc.
Qed.

Lemma connect_unfold (st : state) :
  connect W st =
    let s := self st in
    let p := Path.of_string (port s) in
    let fall_through (st2 : state) :=
      (Return false,
       mkState (self st2)
         (out st2 ++ [Print ("could not connect to board " ++ port s ++ "!")]))
    in
    let caught (e : exn) (st2 : state) :=
      if is_connect_error e
      then fall_through (mkState (self st2) (out st2 ++ [Print (str e)]))
      else (Raise e, st2) in
    match disconnect W st with
    | (Raise e, st1) => caught e st1
    | (Return _, st1) =>
        if negb (path_exists W p) || path_is_dir W p
        then (Return false,
              mkState (self st1)
                (out st1 ++
                 [Print ("Port '" ++ port s
                         ++ "' does not exist or is a folder!")]))
        else match attempts W (seq 0 CONNECT_TRIES) st1 with
             | (Return (Some b), st2) => (Return b, st2)
             | (Return None, st2) => fall_through st2
             | (Raise e, st2) => caught e st2
             end
    end.
Proof.
  unfold connect.
  unfold bind at 1. unfold get_self at 1. cbn beta iota.
  unfold bind at 1. unfold try_except. unfold bind at 1.
  destruct (disconnect W st) as [[b|e] st1].
  - destruct (negb _ || _).
    + reflexivity.
    + destruct (attempts W (seq 0 CONNECT_TRIES) st1) as [[[b'|]|e] st2];
        try reflexivity.
      destruct (is_connect_error e); reflexivity.
  - destruct (is_connect_error e); reflexivity.
Qed.


Lemma attempt_line_set (h : option MpFileExplorer) (s : MPSync) (i : nat) :
  attempt_line (set_explorer h s) i = attempt_line s i.
Proof. reflexivity. Qed.

(** [disconnect] never constructs anything and leaves the configuration
    alone. *)
Lemma disconnect_effect (st : state) :
  exists r s1 d,
    disconnect W st = (r, mkState s1 (out st ++ d))
    /\ attempts_made d = 0
    /\ (s1 = self st \/ s1 = set_explorer None (self st))
    /\ (forall e, r = Raise e ->
        exists o, _explorer (self st) = Some o
                  /\ respond W (out st) o close = Some e
                  /\ is_RemoteIOError e = false
                  /\ s1 = self st).
Proof.
  rewrite disconnect_unfold. destruct st as [s l]; cbn.
  destruct (_explorer s) as [o|] eqn:Ho.
  - destruct (respond W l o close) as [e|] eqn:Hr.
    + destruct (is_RemoteIOError e) eqn:He.
      * exists (Return false), s, [Call o close; Print (str e)].
        repeat split; auto. discriminate.
      * exists (Raise e), s, [Call o close].
        repeat split; auto. intros e' [= <-]. now exists o.
    + exists (Return true), (set_explorer None s), [Call o close].
      repeat split; auto. discriminate.
  - exists (Return false), s, []. rewrite app_nil_r.
    repeat split; auto. discriminate.
Qed.

(** [k] objects that test false, then one that tests true. *)
Lemma attempts_succeed (k : nat) :
  forall (indices : list nat) (st : state),
    k < List.length indices ->
    (forall h c a r, attempts_made h < attempts_made (out st) + k ->
       exists o, construct W h c a r = Return o /\ truthy o = false) ->
    (forall h c a r, attempts_made h = attempts_made (out st) + k ->
       exists o, construct W h c a r = Return o /\ truthy o = true) ->
    exists new o,
      attempts W indices st
      = (Return (Some true),
         mkState (set_explorer (Some o) (self st)) (out st ++ new))
      /\ attempts_made new = k + 1.
Proof.
  induction k as [|k IH]; intros [|i rest] st Hlen Hfail Hsucc;
    try (cbn in Hlen; lia); rewrite attempts_cons; cbv zeta.
  - destruct (Hsucc (out st) (caching (self st)) (address (self st))
                (reset (self st))) as (o & -> & ->); [lia|].
    eexists _, o. split; reflexivity.
  - destruct (Hfail (out st) (caching (self st)) (address (self st))
                (reset (self st))) as (o1 & -> & ->); [lia|].
    set (st2 := mkState _ _).
    assert (Hn : attempts_made (out st2) = attempts_made (out st) + 1).
    { unfold st2; cbn [out]. now rewrite attempts_made_app. }
    destruct (IH rest st2) as (new & o & -> & Hnew).
    + cbn in Hlen. lia.
    + intros h c a r Hh. apply Hfail. lia.
    + intros h c a r Hh. apply Hsucc. lia.
    + exists ([construction (self st); Print (attempt_line (self st) i)]
                ++ new)%list, o.
      split.
      * unfold st2; cbn [self out]. rewrite <- app_assoc. reflexivity.
      * rewrite attempts_made_app, Hnew. reflexivity.
Qed.

(** Only objects that test false. *)
Lemma attempts_exhaust :
  (forall h c a r,
     exists o, construct W h c a r = Return o /\ truthy o = false) ->
  forall (indices : list nat) (st : state),
    exists new s2,
      attempts W indices st = (Return None, mkState s2 (out st ++ new))
      /\ attempts_made new = List.length indices
      /\ (forall i, In i indices ->
            In (Print (attempt_line (self st) i)) new).
Proof.
  intros Hfail. induction indices as [|i rest IH]; intros st.
  - exists [], (self st). rewrite app_nil_r. destruct st. repeat split.
    intros i [].
  - rewrite attempts_cons; cbv zeta.
    destruct (Hfail (out st) (caching (self st)) (address (self st))
                (reset (self st))) as (o1 & -> & ->).
    set (st2 := mkState _ _).
    destruct (IH st2) as (new & s2 & -> & Hnew & Hlines).
    exists ([construction (self st); Print (attempt_line (self st) i)]
              ++ new)%list, s2.
    split; [|split].
    + unfold st2; cbn [self out]. now rewrite <- app_assoc.
    + rewrite attempts_made_app, Hnew. reflexivity.
    + intros j [<-|Hj].
      * right. left. reflexivity.
      * right. right. apply (Hlines j Hj).
Qed.

End Connect.

(** C5: when the port does not exist or is a directory, [connect]
    constructs no explorer and does not succeed; it returns [False], unless
    the [close] of a handle held from before raises something that neither
    [disconnect] nor [connect] handles, which then passes through. *)
Theorem connect_bad_port_no_attempt (W : World) (st : state) :
  let p := Path.of_string (port (self st)) in
  path_exists W p = false \/ path_is_dir W p = true ->
  attempts_made (emitted st (snd (connect W st))) = 0
  /\ fst (connect W st) <> Return true
  /\ ((forall o e,
         _explorer (self st) = Some o ->
         respond W (out st) o close = Some e ->
         is_RemoteIOError e = true \/ is_connect_error e = true) ->
      fst (connect W st) = Return false).
Proof.
  intros p Hbad.
  assert (Hcond : negb (path_exists W p) || path_is_dir W p = true).
  { destruct Hbad as [-> | ->]; [reflexivity | apply orb_true_r]. }
  rewrite connect_unfold; cbv zeta. fold p. rewrite Hcond.
  destruct (disconnect_effect W st) as (r & s1 & d & -> & Hd & _ & Hraise).
  destruct r as [b|e].
  - cbn [fst snd self out]. split; [|split].
    + erewrite emitted_app by (rewrite <- app_assoc; reflexivity).
      rewrite attempts_made_app, Hd. reflexivity.
    + discriminate.
    + reflexivity.
  - destruct (Hraise e eq_refl) as (o & Ho & Hr & He & _).
    destruct (is_connect_error e) eqn:Hc; cbn [fst snd self out].
    + split; [|split].
      * erewrite emitted_app by (rewrite <- !app_assoc; reflexivity).
        rewrite attempts_made_app, Hd. reflexivity.
      * discriminate.
      * reflexivity.
    + split; [|split].
      * erewrite emitted_app by reflexivity. exact Hd.
      * discriminate.
      * intros Hclose. destruct (Hclose o e Ho Hr); congruence.
Qed.

Lemma connect_bad_port_no_attempt_witness :
  attempts_made
    (emitted (fresh ".") (snd (connect portless_world (fresh ".")))) = 0
  /\ fst (connect portless_world (fresh ".")) = Return false.
Proof.
  destruct (@connect_bad_port_no_attempt portless_world (fresh ".")
              (or_introl eq_refl)) as (H0 & _ & Hret).
  split; [exact H0|].
  apply Hret. intros o e Ho. discriminate Ho.
Defined.

(** The one case in which the loop of [connect] goes on: an object that
    tests false.  With a usable port, and a handle held from before (if
    any) whose [close] raises nothing but [RemoteIOError], if the
    constructors hand out an object that tests false on the first
    [k < CONNECT_TRIES] attempts and one that tests true on the next,
    [connect] returns [True] after exactly [k + 1] constructions; if they
    only hand out objects that test false, [connect] makes exactly
    [CONNECT_TRIES] constructions, prints the line of every failed attempt
    and returns [False]. *)
Theorem connect_retry_bound (W : World) (st : state) :
  let p := Path.of_string (port (self st)) in
  let n0 := attempts_made (out st) in
  path_exists W p = true ->
  path_is_dir W p = false ->
  (forall o e,
     _explorer (self st) = Some o ->
     respond W (out st) o close = Some e ->
     is_RemoteIOError e = true) ->
  (forall k,
     k < CONNECT_TRIES ->
     (forall h c a r, attempts_made h < n0 + k ->
        exists o, construct W h c a r = Return o /\ truthy o = false) ->
     (forall h c a r, attempts_made h = n0 + k ->
        exists o, construct W h c a r = Return o /\ truthy o = true) ->
     fst (connect W st) = Return true
     /\ attempts_made (emitted st (snd (connect W st))) = k + 1)
  /\ ((forall h c a r,
         exists o, construct W h c a r = Return o /\ truthy o = false) ->
      fst (connect W st) = Return false
      /\ attempts_made (emitted st (snd (connect W st))) = CONNECT_TRIES
      /\ (forall i, i < CONNECT_TRIES ->
            In (Print (attempt_line (self st) i))
               (emitted st (snd (connect W st))))).
Proof.
  intros p n0 Hex Hdir Hclose.
  assert (Hcond : negb (path_exists W p) || path_is_dir W p = false)
    by now rewrite Hex, Hdir.
  destruct (disconnect_effect W st) as (r & s1 & d & Hdis & Hd & Hs1 & Hraise).
  assert (Hr : exists b, r = Return b).
  { destruct r as [b|e]; [now exists b|].
    destruct (Hraise e eq_refl) as (o & Ho & Hresp & He & _).
    rewrite (Hclose _ _ Ho Hresp) in He. discriminate. }
  destruct Hr as (b & ->).
  set (st1 := mkState s1 (out st ++ d)) in *.
  assert (Hn1 : attempts_made (out st1) = n0).
  { unfold st1; cbn [out]. rewrite attempts_made_app, Hd. apply Nat.add_0_r. }
  split.
  - intros k Hk Hfail Hsucc.
    destruct (@attempts_succeed W k (seq 0 CONNECT_TRIES) st1)
      as (new & o & Hatt & Hnew).
    + now rewrite length_seq.
    + intros h c a r Hh. apply Hfail. lia.
    + intros h c a r Hh. apply Hsucc. lia.
    + rewrite connect_unfold; cbv zeta. fold p. rewrite Hdis, Hcond, Hatt.
      cbn [fst snd self out]. split; [reflexivity|].
      erewrite emitted_app
        by (unfold st1; cbn [out]; rewrite <- app_assoc; reflexivity).
      rewrite attempts_made_app, Hd, Hnew. reflexivity.
  - intros Hfail.
    destruct (@attempts_exhaust W Hfail (seq 0 CONNECT_TRIES) st1)
      as (new & s2 & Hatt & Hnew & Hlines).
    rewrite connect_unfold; cbv zeta. fold p. rewrite Hdis, Hcond, Hatt.
    cbn [fst snd self out].
    erewrite emitted_app
      by (unfold st1; cbn [out]; rewrite <- !app_assoc; reflexivity).
    split; [reflexivity|split].
    + rewrite !attempts_made_app, Hd, Hnew, length_seq. reflexivity.
    + intros i Hi. apply in_or_app. right. apply in_or_app. left.
      replace (attempt_line (self st) i) with (attempt_line (self st1) i).
      * apply Hlines. apply in_seq. lia.
      * unfold st1; cbn [self]. destruct Hs1 as [-> | ->]; reflexivity.
Qed.

Lemma connect_retry_bound_witness :
  (fst (connect slow_world (fresh ".")) = Return true
   /\ attempts_made
        (emitted (fresh ".") (snd (connect slow_world (fresh ".")))) = 3)
  /\ (fst (connect dead_world (fresh ".")) = Return false
      /\ attempts_made
           (emitted (fresh ".") (snd (connect dead_world (fresh ".")))) = 5).
Proof.
  split.
  - destruct (@connect_retry_bound slow_world (fresh ".")
                eq_refl eq_refl) as (Hfirst & _).
    + intros o e Ho. discriminate Ho.
    + apply (Hfirst 2).
      * unfold CONNECT_TRIES. lia.
      * intros h c a r Hh. exists husk.
        unfold slow_world; cbn [construct].
        assert (E : Nat.ltb (attempts_made h) 2 = true)
          by (apply Nat.ltb_lt; cbn in Hh; lia).
        rewrite E. split; reflexivity.
      * intros h c a r Hh. exists board0.
        unfold slow_world; cbn [construct].
        assert (E : Nat.ltb (attempts_made h) 2 = false)
          by (apply Nat.ltb_ge; cbn in Hh; lia).
        rewrite E. split; reflexivity.
  - destruct (@connect_retry_bound dead_world (fresh ".")
                eq_refl eq_refl) as (_ & Hall).
    + intros o e Ho. discriminate Ho.
    + destruct Hall as (Hret & Hcount & _).
      * intros h c a r. exists husk. split; reflexivity.
      * split; assumption.
Defined.

Example connect_slow_log :
  emitted (fresh ".") (snd (connect slow_world (fresh ".")))
  = [New false "ser:/dev/ttyUSB0" false;
     Print "could not connect to /dev/ttyUSB0 [0/5]";
     New false "ser:/dev/ttyUSB0" false;
     Print "could not connect to /dev/ttyUSB0 [1/5]";
     New false "ser:/dev/ttyUSB0" false;
     Print "Connected to esp32"].
Proof. reflexivity. Qed.

(** An attempt that raises ends the loop at once: one construction. *)
Example connect_raise_log :
  connect stuck_world (fresh ".")
  = (Return false,
     mkState (self (fresh "."))
       [New false "ser:/dev/ttyUSB0" false;
        Print "no board";
        Print "could not connect to board /dev/ttyUSB0!"]).
Proof. reflexivity. Qed.

(** The handle a run of the loop leaves behind, unless it succeeds. *)
Lemma attempts_handle (W : World) (indices : list nat) :
  forall st,
    fst (attempts W indices st) <> Return (Some true) ->
    (_explorer (self (snd (attempts W indices st))) = None
     <-> _explorer (self st) = None
         /\ (indices = []
             \/ exists e,
                 construct W (out st) (caching (self st))
                   (MPF_PROTOCOL ++ ":" ++ port (self st)) (reset (self st))
                 = Raise e)).
Proof.
  induction indices as [|i rest IH]; intros st.
  - cbn. intros _. split; [now auto | now intros [H _]].
  - rewrite attempts_cons; cbv zeta.
    destruct (construct W (out st) _ _ _) as [o|e] eqn:Hc.
    + destruct (truthy o).
      * cbn. intros H. now elim H.
      * intros H. specialize (IH _ H). rewrite IH.
        cbn [self out _explorer set_explorer].
        split.
        -- intros [Habs _]. discriminate Habs.
        -- intros [_ [Habs | [e Habs]]]; discriminate Habs.
    + intros _. cbn [fst snd self]. split.
      * intros H. split; [exact H | right; now exists e].
      * now intros [H _].
Qed.

(** After a [connect] that returned [False] the handle is null exactly
    when the [disconnect] at its start left it null and no construction
    handed out an object, that is, the port was unusable or the first
    construction raised. *)
Lemma failed_connect_null_iff (W : World) (st : state) :
  let s := self st in
  let p := Path.of_string (port s) in
  let st1 := snd (disconnect W st) in
  fst (connect W st) = Return false ->
  (_explorer (self (snd (connect W st))) = None
   <-> _explorer (self st1) = None
       /\ ((path_exists W p = false \/ path_is_dir W p = true)
           \/ exists e,
               construct W (out st1) (caching s)
                 (MPF_PROTOCOL ++ ":" ++ port s) (reset s)
               = Raise e)).
Proof.
  intros s p st1. unfold st1. rewrite connect_unfold; cbv zeta. fold s p.
  destruct (disconnect_effect W st) as (r & s1 & d & Hdis & _ & Hs1 & Hraise).
  rewrite Hdis. cbn [snd self out].
  assert (Hcfg : caching s1 = caching s /\ port s1 = port s
                 /\ reset s1 = reset s).
  { destruct Hs1 as [-> | ->]; repeat split. }
  destruct Hcfg as (Hca & Hpo & Hre).
  destruct r as [b|e].
  - destruct (negb (path_exists W p) || path_is_dir W p) eqn:Hcond.
    + intros _. cbn [fst snd self out]. split.
      * intros H. split; [exact H|]. left.
        destruct (path_exists W p); [right|left]; cbn in Hcond; auto.
      * now intros [H _].
    + assert (Hgood : ~ (path_exists W p = false \/ path_is_dir W p = true)).
      { intros [H | H]; rewrite H in Hcond; cbn in Hcond;
          [discriminate | now rewrite orb_true_r in Hcond]. }
      pose proof (@attempts_handle W (seq 0 CONNECT_TRIES)
                    (mkState s1 (out st ++ d))) as Hh.
      cbn [self out] in Hh. rewrite Hca, Hpo, Hre in Hh.
      destruct (attempts W (seq 0 CONNECT_TRIES) (mkState s1 (out st ++ d)))
        as [[[b'|]|e] st2]; cbn [fst snd self out] in *.
      * intros [= ->]. rewrite Hh by discriminate.
        split; intros [H1 H2]; (split; [exact H1|]).
        -- destruct H2 as [H2|H2]; [discriminate H2 | now right].
        -- destruct H2 as [H2|H2]; [now elim Hgood | now right].
      * intros _. rewrite Hh by discriminate.
        split; intros [H1 H2]; (split; [exact H1|]).
        -- destruct H2 as [H2|H2]; [discriminate H2 | now right].
        -- destruct H2 as [H2|H2]; [now elim Hgood | now right].
      * destruct (is_connect_error e); [|discriminate].
        intros _. cbn [fst snd self out]. rewrite Hh by discriminate.
        split; intros [H1 H2]; (split; [exact H1|]).
        -- destruct H2 as [H2|H2]; [discriminate H2 | now right].
        -- destruct H2 as [H2|H2]; [now elim Hgood | now right].
  - destruct (Hraise e eq_refl) as (o & Ho & _ & _ & ->).
    destruct (is_connect_error e); [|discriminate].
    intros _. cbn [fst snd self out]. rewrite Ho.
    split; [discriminate | now intros [H _]].
Qed.

(** C6 as stated fails.  A session that holds a handle whose [close]
    raises a [RemoteIOError] still holds it after a [connect] that failed
    on a [ConError] of the constructor; and a fresh session whose five
    constructions each hand out an object that tests false holds the last
    of them after [connect] has returned [False]. *)
Lemma failed_connect_keeps_handle :
  (_explorer (self (connected ".")) = Some board0
   /\ fst (connect stuck_world (connected ".")) = Return false
   /\ _explorer (self (snd (connect stuck_world (connected "."))))
      = Some board0)
  /\ (_explorer (self (fresh ".")) = None
      /\ fst (connect dead_world (fresh ".")) = Return false
      /\ attempts_made
           (emitted (fresh ".") (snd (connect dead_world (fresh "."))))
         = CONNECT_TRIES
      /\ _explorer (self (snd (connect dead_world (fresh "."))))
         = Some husk).
Proof. repeat split. Qed.

(** ** The scoped session *)

(** C8: the wrapper runs [disconnect] on whatever the body leaves, whether
    the body returned or raised; when [connect] does not return [True] the
    wrapper raises from the state [connect] left, whatever the body is;
    and when the final [disconnect] returns [False] the wrapper raises
    ["can't disconnect"], also after a body that returned. *)
Theorem scoped_session (W : World) (A : Type) (body : M A) (st : state) :
  (forall st1,
     connect W st = (Return false, st1) ->
     with_ W body st = (Raise (Exception "can't connect"), st1))
  /\ (forall e st1,
        connect W st = (Raise e, st1) ->
        with_ W body st = (Raise e, st1))
  /\ (forall st1 rb st2,
        connect W st = (Return true, st1) ->
        body st1 = (rb, st2) ->
        snd (with_ W body st) = snd (disconnect W st2)
        /\ (fst (disconnect W st2) = Return true ->
            fst (with_ W body st) = rb)
        /\ (fst (disconnect W st2) = Return false ->
            fst (with_ W body st) = Raise (Exception "can't disconnect"))
        /\ (forall e, fst (disconnect W st2) = Raise e ->
            fst (with_ W body st) = Raise e)).
Proof.
  unfold with_, __enter__, __exit__, bind, ret, raise.
  split; [|split].
  - intros st1 ->. reflexivity.
  - intros e st1 ->. reflexivity.
  - intros st1 rb st2 -> Hb. rewrite Hb.
    destruct rb as [a|e]; destruct (disconnect W st2) as [[[|]|e'] st3];
      cbn; repeat split; intros; congruence.
Qed.

Lemma scoped_session_witness :
  with_ portless_world (ret tt) (fresh ".")
  = (Raise (Exception "can't connect"),
     snd (connect portless_world (fresh ".")))
  /\ (fst (with_ quiet_world (raise (A:=unit) (Exception "boom")) (fresh "."))
      = Raise (Exception "boom")
      /\ snd (with_ quiet_world (raise (A:=unit) (Exception "boom"))
                (fresh "."))
         = snd (disconnect quiet_world
                  (snd (connect quiet_world (fresh "."))))
      /\ fst (with_ sticky_world (ret tt) (fresh "."))
         = Raise (Exception "can't disconnect")).
Proof.
  split; [|split; [|split]].
  - apply (proj1 (@scoped_session portless_world unit (ret tt) (fresh "."))).
    reflexivity.
  - destruct (proj2 (proj2 (@scoped_session quiet_world unit
                              (raise (Exception "boom")) (fresh ".")))
                (snd (connect quiet_world (fresh ".")))
                (Raise (Exception "boom"))
                (snd (connect quiet_world (fresh ".")))
                eq_refl eq_refl) as (_ & H & _).
    apply H. reflexivity.
  - destruct (proj2 (proj2 (@scoped_session quiet_world unit
                              (raise (Exception "boom")) (fresh ".")))
                (snd (connect quiet_world (fresh ".")))
                (Raise (Exception "boom"))
                (snd (connect quiet_world (fresh ".")))
                eq_refl eq_refl) as (H & _).
    exact H.
  - destruct (proj2 (proj2 (@scoped_session sticky_world unit
                              (ret tt) (fresh ".")))
                (snd (connect sticky_world (fresh ".")))
                (Return tt)
                (snd (connect sticky_world (fresh ".")))
                eq_refl eq_refl) as (_ & _ & H & _).
    apply H. reflexivity.
Defined.

(** ** The walk *)

(** Induction on a tree: a directory may assume the property of all its
    entries. *)
Lemma node_tree_ind (P : node -> Prop) :
  (forall n, P (File n)) ->
  (forall n cs, Forall P cs -> P (Dir n cs)) ->
  (forall n, P (Other n)) ->
  forall e, P e.
Proof.
  intros HF HD HO.
  fix IH 1. intros [n | n cs | n].
  - apply HF.
  - apply HD. induction cs as [|c cs IHcs]; constructor.
    + apply IH.
    + apply IHcs.
  - apply HO.
Qed.

Section Walk.

Variable W : World.

Lemma copy_file_unfold (file : PosixPath) (st : state) :
  _copy_file W file st =
    let dst := remote_path (self st) file in
    let l1 := (out st ++ [Print ("Copying " ++ dst)])%list in
    match _explorer (self st) with
    | None => (Raise unconnected, mkState (self st) l1)
    | Some o =>
        (match respond W l1 o (put file dst) with
         | None => Return tt
         | Some e => Raise e
         end,
         mkState (self st) (l1 ++ [Call o (put file dst)]))
    end.
Proof.
  destruct st as [s l].
  unfold _copy_file, bind, get_self, print, emit, explorer, invoke, raise, ret.
  cbn -[append remote_path].
  destruct (_explorer s) as [o|]; cbn -[append remote_path]; [|reflexivity].
  destruct (respond W _ o _); reflexivity.
Qed.

Lemma create_folder_unfold (d : PosixPath) (st : state) :
  _create_folder W d st =
    let dst := remote_path (self st) d in
    let l1 := (out st ++ [Print ("Creating folder " ++ dst)])%list in
    match _explorer (self st) with
    | None => (Raise unconnected, mkState (self st) l1)
    | Some o =>
        match respond W l1 o (md dst) with
        | None => (Return tt, mkState (self st) (l1 ++ [Call o (md dst)]))
        | Some e =>
            if is_RemoteIOError e
            then (Return tt,
                  mkState (self st)
                    (l1 ++ [Call o (md dst); Print (str e)]))
            else (Raise e, mkState (self st) (l1 ++ [Call o (md dst)]))
        end
    end.
Proof.
  destruct st as [s l].
  unfold _create_folder, bind, get_self, print, emit, explorer, invoke,
    try_except, raise, ret.
  cbn -[append remote_path].
  destruct (_explorer s) as [o|]; cbn -[append remote_path]; [|reflexivity].
  destruct (respond W _ o _) as [e|]; cbn -[append remote_path];
    [|reflexivity].
  destruct (is_RemoteIOError e); cbn -[append remote_path]; [|reflexivity].
  now rewrite <- app_assoc.
Qed.

Lemma walk_nil (f : PosixPath) (st : state) :
  walk W f [] st = (Return tt, st).
Proof. reflexivity. Qed.

Lemma walk_cons (f : PosixPath) (e : node) (rest : list node) (st : state) :
  walk W f (e :: rest) st =
    match sync_entry W f e st with
    | (Return _, st1) => walk W f rest st1
    | (Raise x, st1) => (Raise x, st1)
    end.
Proof. reflexivity. Qed.

Lemma sync_entry_dir (f : PosixPath) (n : string) (cs : list node)
  (st : state) :
  sync_entry W f (Dir n cs) st =
    match _create_folder W (Path.child f n) st with
    | (Return _, st1) => walk W (Path.child f n) cs st1
    | (Raise x, st1) => (Raise x, st1)
    end.
Proof. reflexivity. Qed.

(** A property of runs holds of every walk when it holds of the two
    requests a walk is made of and is kept by doing nothing, by running one
    thing after another and by descending into a directory. *)
Lemma walk_run_ind
  (P : PosixPath -> state -> result unit -> state -> Prop) :
  (forall f st, P f st (Return tt) st) ->
  (forall f st st1 r st2,
     P f st (Return tt) st1 -> P f st1 r st2 -> P f st r st2) ->
  (forall f n st,
     P f st (fst (_copy_file W (Path.child f n) st))
       (snd (_copy_file W (Path.child f n) st))) ->
  (forall f n st e st1,
     _create_folder W (Path.child f n) st = (Raise e, st1) ->
     P f st (Raise e) st1) ->
  (forall f n st st1 r st2,
     _create_folder W (Path.child f n) st = (Return tt, st1) ->
     P (Path.child f n) st1 r st2 ->
     P f st r st2) ->
  forall f entries st,
    P f st (fst (walk W f entries st)) (snd (walk W f entries st)).
Proof.
  intros Hnone Hseq Hfile Hfail Hdown.
  assert (Hlist : forall es,
             Forall (fun e => forall f st,
                         P f st (fst (sync_entry W f e st))
                           (snd (sync_entry W f e st))) es ->
             forall f st,
               P f st (fst (walk W f es st)) (snd (walk W f es st))).
  { induction 1 as [|e es He _ IH]; intros f st.
    - apply Hnone.
    - rewrite walk_cons. specialize (He f st).
      destruct (sync_entry W f e st) as [[[]|x] st1]; cbn [fst snd] in *.
      + eapply Hseq; [exact He | apply IH].
      + exact He. }
  intros f entries. apply Hlist. clear f.
  induction entries as [|e es IHes]; constructor; [|exact IHes].
  clear es IHes. induction e as [n | n cs IHcs | n] using node_tree_ind;
    intros f st.
  - apply Hfile.
  - rewrite sync_entry_dir.
    destruct (_create_folder W (Path.child f n) st) as [[[]|x] st1] eqn:Hc.
    + eapply Hdown; [exact Hc | apply Hlist, IHcs].
    + cbn. eapply Hfail. exact Hc.
  - apply Hnone.
Qed.

End Walk.

Section WalkProperties.

Variable W : World.

Lemma walk_run_ind_flat (P : state -> result unit -> state -> Prop) :
  (forall st, P st (Return tt) st) ->
  (forall st st1 r st2, P st (Return tt) st1 -> P st1 r st2 -> P st r st2) ->
  (forall file st,
     P st (fst (_copy_file W file st)) (snd (_copy_file W file st))) ->
  (forall d st,
     P st (fst (_create_folder W d st)) (snd (_create_folder W d st))) ->
  forall f entries st,
    P st (fst (walk W f entries st)) (snd (walk W f entries st)).
Proof.
  intros Hnone Hseq Hfile Hfolder.
  apply (@walk_run_ind W (fun _ => P)); auto.
  - intros f n st e st1 Hc. specialize (Hfolder (Path.child f n) st).
    now rewrite Hc in Hfolder.
  - intros f n st st1 r st2 Hc Hsub.
    specialize (Hfolder (Path.child f n) st). rewrite Hc in Hfolder.
    eapply Hseq; eassumption.
Qed.

Lemma sync_is_walk (fo : option PosixPath) (entries : list node)
  (st : state) :
  sync W fo entries st = walk W (start_dir (self st) fo) entries st.
Proof. reflexivity. Qed.

(** A walk leaves the object alone and only adds to the log. *)
Lemma walk_frame (f : PosixPath) (entries : list node) (st : state) :
  self (snd (walk W f entries st)) = self st
  /\ exists new, out (snd (walk W f entries st)) = (out st ++ new)%list.
Proof.
  apply (@walk_run_ind_flat
           (fun st _ st' =>
              self st' = self st
              /\ exists new, out st' = (out st ++ new)%list)).
  - intros s. split; [reflexivity | exists []; now rewrite app_nil_r].
  - intros s s1 r s2 [E1 [a Ha]] [E2 [b Hb]]. split; [congruence|].
    exists (a ++ b)%list. now rewrite Hb, Ha, app_assoc.
  - intros file s. rewrite copy_file_unfold; cbv zeta.
    destruct (_explorer (self s)); cbn [fst snd self out];
      (split; [reflexivity | rewrite <- ?app_assoc; eauto]).
  - intros d s. rewrite create_folder_unfold; cbv zeta.
    destruct (_explorer (self s)) as [o|]; [destruct (respond W _ o _) as [e|];
      [destruct (is_RemoteIOError e)|]|];
      cbn [fst snd self out];
      (split; [reflexivity | rewrite <- ?app_assoc; eauto]).
Qed.

Lemma walk_creates_or_uploads (f : PosixPath) (entries : list node)
  (st : state) :
  exists new,
    out (snd (walk W f entries st)) = (out st ++ new)%list
    /\ Forall (fun e => creates_or_uploads e = true) new.
Proof.
  apply (@walk_run_ind_flat
           (fun st _ st' =>
              exists new,
                out st' = (out st ++ new)%list
                /\ Forall (fun e => creates_or_uploads e = true) new)).
  - intros s. exists []. now rewrite app_nil_r.
  - intros s s1 r s2 (a & Ha & Fa) (b & Hb & Fb).
    exists (a ++ b)%list. split.
    + now rewrite Hb, Ha, app_assoc.
    + apply Forall_app. now split.
  - intros file s. rewrite copy_file_unfold; cbv zeta.
    destruct (_explorer (self s)); cbn [fst snd self out];
      rewrite <- ?app_assoc; eexists; (split; [reflexivity|]);
      repeat constructor.
  - intros d s. rewrite create_folder_unfold; cbv zeta.
    destruct (_explorer (self s)) as [o|]; [destruct (respond W _ o _) as [e|];
      [destruct (is_RemoteIOError e)|]|];
      cbn [fst snd self out];
      rewrite <- ?app_assoc; eexists; (split; [reflexivity|]);
      repeat constructor.
Qed.

Lemma obeys_app (a : list event) :
  forall h r b,
    obeys W h (Return tt) a ->
    obeys W (h ++ a) r b ->
    obeys W h r (a ++ b).
Proof.
  induction a as [|ev a IH]; intros h r b Ha Hb.
  - now rewrite app_nil_r in Hb.
  - cbn [obeys app] in *. destruct Ha as [Hev Ha]. split.
    + destruct ev as [l | c ad rs | o rq]; trivial.
      destruct (respond W h o rq) as [e|]; trivial.
      destruct (is_md rq && is_RemoteIOError e).
      * destruct Hev as [rest' ->]. now exists (rest' ++ b)%list.
      * destruct Hev as [_ Habs]. discriminate Habs.
    + apply IH; [exact Ha|]. now rewrite <- app_assoc.
Qed.

Lemma obeys_at (pre : list event) :
  forall h r o rq post,
    obeys W h r (pre ++ Call o rq :: post) ->
    match respond W (h ++ pre) o rq with
    | None => True
    | Some e =>
        if is_md rq && is_RemoteIOError e
        then exists rest', post = Print (str e) :: rest'
        else post = [] /\ r = Raise e
    end.
Proof.
  induction pre as [|ev pre IH]; intros h r o rq post H.
  - rewrite app_nil_r. cbn in H. apply H.
  - cbn [obeys app] in H. destruct H as [_ H].
    apply IH in H. now rewrite <- app_assoc in H.
Qed.

Lemma walk_obeys (f : PosixPath) (entries : list node) (st : state) :
  exists new,
    out (snd (walk W f entries st)) = (out st ++ new)%list
    /\ obeys W (out st) (fst (walk W f entries st)) new.
Proof.
  apply (@walk_run_ind_flat
           (fun st r st' =>
              exists new,
                out st' = (out st ++ new)%list /\ obeys W (out st) r new)).
  - intros s. exists []. now rewrite app_nil_r.
  - intros s s1 r s2 (a & Ha & Oa) (b & Hb & Ob).
    exists (a ++ b)%list. split.
    + now rewrite Hb, Ha, app_assoc.
    + apply obeys_app; [exact Oa | now rewrite <- Ha].
  - intros file s. rewrite copy_file_unfold; cbv zeta.
    destruct (_explorer (self s)) as [o|]; cbn [fst snd self out];
      rewrite <- ?app_assoc; eexists; (split; [reflexivity|]).
    + cbn [obeys app]. split; [trivial|]. split; [|exact I].
      destruct (respond W _ o _) as [e|]; cbn; auto.
    + cbn. auto.
  - intros d s. rewrite create_folder_unfold; cbv zeta.
    set (dst := remote_path (self s) d).
    destruct (_explorer (self s)) as [o|].
    + destruct (respond W _ o _) as [e|] eqn:Hr.
      * destruct (is_RemoteIOError e) eqn:He; cbn [fst snd self out].
        -- exists [Print ("Creating folder " ++ dst); Call o (md dst);
                   Print (str e)].
           split; [now rewrite <- app_assoc|].
           cbn [obeys]. rewrite Hr. cbn [is_md andb]. rewrite He.
           repeat split; eauto.
        -- exists [Print ("Creating folder " ++ dst); Call o (md dst)].
           split; [now rewrite <- app_assoc|].
           cbn [obeys]. rewrite Hr. cbn [is_md andb]. rewrite He.
           repeat split; eauto.
      * cbn [fst snd self out].
        exists [Print ("Creating folder " ++ dst); Call o (md dst)].
        split; [now rewrite <- app_assoc|].
        cbn [obeys]. rewrite Hr. auto.
    + cbn [fst snd self out]. eexists; split; [reflexivity|]. cbn. auto.
Qed.

End WalkProperties.

(** C3, as amended: every [RemoteIOError] that a make-directory request
    raises, of whatever class, is swallowed: its line is printed and the
    walk goes on into the directory and then to the remaining entries;
    every exception that an upload raises, a [RemoteIOError] included, is
    raised by [sync], and nothing is logged after that upload. *)
Theorem md_errors_swallowed_put_errors_abort
  (W : World) (fo : option PosixPath) (entries : list node) (st : state) :
  (forall f n cs rest o c msg,
     _explorer (self st) = Some o ->
     let dst := remote_path (self st) (Path.child f n) in
     respond W (out st ++ [Print ("Creating folder " ++ dst)]) o (md dst)
     = Some (RemoteIOError c msg) ->
     walk W f (Dir n cs :: rest) st
     = (walk W (Path.child f n) cs >> walk W f rest)
         (mkState (self st)
            (out st ++ [Print ("Creating folder " ++ dst); Call o (md dst);
                        Print msg])))
  /\ (forall pre o dst post c msg,
        emitted st (snd (sync W fo entries st))
        = (pre ++ Call o (md dst) :: post)%list ->
        respond W (out st ++ pre) o (md dst)
        = Some (RemoteIOError c msg) ->
        exists post', post = Print msg :: post')
  /\ (forall pre o file dst post e,
        emitted st (snd (sync W fo entries st))
        = (pre ++ Call o (put file dst) :: post)%list ->
        respond W (out st ++ pre) o (put file dst) = Some e ->
        fst (sync W fo entries st) = Raise e /\ post = []).
Proof.
  split; [|split].
  - intros f n cs rest o c msg Ho dst Hr.
    rewrite walk_cons, sync_entry_dir, create_folder_unfold; cbv zeta.
    fold dst. rewrite Ho, Hr. cbn [is_RemoteIOError str].
    rewrite <- app_assoc. unfold bind.
    destruct (walk W (Path.child f n) cs _) as [[[]|x] st1]; reflexivity.
  - intros pre o dst post c msg Hlog Hr.
    rewrite sync_is_walk in Hlog.
    destruct (walk_obeys W (start_dir (self st) fo) entries st)
      as (new & Hnew & Hob).
    rewrite (@emitted_app _ _ _ Hnew) in Hlog. subst new.
    apply obeys_at in Hob. rewrite Hr in Hob. exact Hob.
  - intros pre o file dst post e Hlog Hr.
    rewrite sync_is_walk in *.
    destruct (walk_obeys W (start_dir (self st) fo) entries st)
      as (new & Hnew & Hob).
    rewrite (@emitted_app _ _ _ Hnew) in Hlog. subst new.
    apply obeys_at in Hob. rewrite Hr in Hob. cbn in Hob.
    destruct Hob as [-> ->]. split; reflexivity.
Qed.

Lemma md_errors_swallowed_put_errors_abort_witness :
  walk grudging_world (Path.of_string "/r") small_tree (connected "/r")
  = (walk grudging_world (Path.of_string "/r/lib") [File "a.py"]
     >> walk grudging_world (Path.of_string "/r") [File "main.py"])
      (mkState (self (connected "/r"))
         [Print "Creating folder /lib"; Call board0 (md "/lib");
          Print "Invalid directory name"])
  /\ fst (sync brittle_world None [File "main.py"] (connected "/r"))
     = Raise (RemoteIOError OtherFault "write failed").
Proof.
  split.
  - apply (proj1 (@md_errors_swallowed_put_errors_abort grudging_world None
                    small_tree (connected "/r"))
             (Path.of_string "/r") "lib" [File "a.py"] [File "main.py"]
             board0 OtherFault "Invalid directory name" eq_refl eq_refl).
  - apply (proj2 (proj2 (@md_errors_swallowed_put_errors_abort brittle_world
                           None [File "main.py"] (connected "/r")))
             [Print "Copying /main.py"] board0
             (Path.of_string "/r/main.py") "/main.py" []
             (RemoteIOError OtherFault "write failed") eq_refl eq_refl).
Defined.

(** C3 as stated fails: a make-directory request answered by a
    [RemoteIOError] that is not of the "already exists" class is swallowed
    all the same; [sync] returns normally and goes on to upload. *)
Lemma other_md_error_is_swallowed_too :
  respond grudging_world [Print "Creating folder /lib"] board0 (md "/lib")
  = Some (RemoteIOError OtherFault "Invalid directory name")
  /\ sync grudging_world None small_tree (connected "/r")
     = (Return tt,
        mkState (self (connected "/r"))
          [Print "Creating folder /lib";
           Call board0 (md "/lib");
           Print "Invalid directory name";
           Print "Copying /lib/a.py";
           Call board0 (put (Path.of_string "/r/lib/a.py") "/lib/a.py");
           Print "Copying /main.py";
           Call board0 (put (Path.of_string "/r/main.py") "/main.py")]).
Proof. split; reflexivity. Qed.

(** C9: whatever the tree, the board and the session, the events a [sync]
    adds to the log are printed lines, make-directory requests and
    uploads; no remove request is among them. *)
Theorem sync_never_removes
  (W : World) (fo : option PosixPath) (entries : list node) (st : state) :
  Forall (fun e => creates_or_uploads e = true)
    (emitted st (snd (sync W fo entries st)))
  /\ filter is_rm_call (emitted st (snd (sync W fo entries st))) = [].
Proof.
  rewrite sync_is_walk.
  destruct (walk_creates_or_uploads W (start_dir (self st) fo) entries st)
    as (new & Hnew & Hall).
  rewrite (@emitted_app _ _ _ Hnew). split; [exact Hall|].
  clear Hnew. induction Hall as [|e l He _ IH]; [reflexivity|].
  cbn [filter]. rewrite IH.
  destruct e as [line | c a r | o [file dst | dst | dst |]];
    solve [reflexivity | discriminate He].
Qed.

(** The remove request exists: [_delete] issues it. *)
Example delete_issues_rm :
  _delete quiet_world (Path.of_string "/r/old.py") (connected "/r")
  = (Return tt,
     mkState (self (connected "/r"))
       [Print "Deleting /old.py"; Call board0 (rm "/old.py")]).
Proof. reflexivity. Qed.

(** On a session without handle a walk stops at the first entry that is a
    directory or a file, after the line it prints for it. *)
Lemma walk_unconnected (W : World) (f : PosixPath) (entries : list node) :
  forall st,
    _explorer (self st) = None ->
    if existsb (fun e => is_dir e || is_file e) entries
    then exists line,
        walk W f entries st
        = (Raise unconnected, mkState (self st) (out st ++ [Print line]))
    else walk W f entries st = (Return tt, st).
Proof.
  induction entries as [|e rest IH]; intros st Hno.
  - reflexivity.
  - rewrite walk_cons.
    destruct e as [n | n cs | n]; cbn [existsb is_dir is_file orb].
    + cbn [sync_entry]. rewrite copy_file_unfold; cbv zeta. rewrite Hno.
      eexists. reflexivity.
    + rewrite sync_entry_dir, create_folder_unfold; cbv zeta. rewrite Hno.
      eexists. reflexivity.
    + cbn [sync_entry]. unfold ret. apply IH, Hno.
Qed.

(** C10: on a session without handle, [sync] raises the "unconnected"
    exception if and only if the directory it lists has an entry that is a
    file or a directory; over an empty directory it returns normally and
    leaves the log as it was; and in no case does it issue a request. *)
Theorem sync_unconnected
  (W : World) (fo : option PosixPath) (entries : list node) (st : state) :
  _explorer (self st) = None ->
  (fst (sync W fo entries st) = Raise unconnected
   <-> exists e, In e entries /\ (is_dir e = true \/ is_file e = true))
  /\ (entries = [] -> sync W fo entries st = (Return tt, st))
  /\ filter is_Call (emitted st (snd (sync W fo entries st))) = [].
Proof.
  intros Hno. rewrite sync_is_walk.
  pose proof (@walk_unconnected W (start_dir (self st) fo) entries st Hno)
    as Hw.
  split; [|split].
  - destruct (existsb _ entries) eqn:Hex.
    + destruct Hw as [line ->]. cbn [fst]. split; [intros _|reflexivity].
      apply existsb_exists in Hex. destruct Hex as (e & Hin & He).
      exists e. split; [exact Hin|]. now apply orb_true_iff.
    + rewrite Hw. cbn [fst]. split; [discriminate|].
      intros (e & Hin & He).
      assert (Habs : existsb (fun e => is_dir e || is_file e) entries = true).
      { apply existsb_exists. exists e. split; [exact Hin|].
        now apply orb_true_iff. }
      congruence.
  - intros ->. reflexivity.
  - destruct (existsb _ entries).
    + destruct Hw as [line ->]. cbn [snd].
      now erewrite emitted_app by reflexivity.
    + rewrite Hw. cbn [snd]. now rewrite emitted_same.
Qed.

Lemma sync_unconnected_witness :
  fst (sync quiet_world None small_tree (fresh "/r")) = Raise unconnected
  /\ sync quiet_world None [] (fresh "/r") = (Return tt, fresh "/r")
  /\ sync quiet_world None [Other "tty"] (fresh "/r")
     = (Return tt, fresh "/r").
Proof.
  destruct (@sync_unconnected quiet_world None small_tree (fresh "/r")
              eq_refl) as (Hiff & _ & _).
  destruct (@sync_unconnected quiet_world None [] (fresh "/r") eq_refl)
    as (_ & Hnil & _).
  split; [|split].
  - apply Hiff. exists (File "main.py"). split; [right; left|right];
      reflexivity.
  - apply Hnil. reflexivity.
  - reflexivity.
Defined.

(** ** Parent before child *)




Lemma app_split_elt {A} (a : list A) :
  forall b pre x post,
    (a ++ b = pre ++ x :: post)%list ->
    (exists m, a = pre ++ x :: m /\ post = m ++ b)%list
    \/ (exists m, pre = a ++ m /\ b = m ++ x :: post)%list.
Proof.
  induction a as [|y a IH]; intros b pre x post H.
  - right. exists pre. split; [reflexivity | exact H].
  - destruct pre as [|z pre]; cbn in H; injection H as -> H.
    + left. exists a. split; [reflexivity | now symmetry].
    + destruct (IH _ _ _ _ H) as [(m & -> & ->) | (m & -> & ->)].
      * left. now exists m.
      * right. now exists m.
Qed.

Section ParentFirst.

Variable W : World.



End ParentFirst.

Section Reached.

Variable W : World.






End Reached.



Example sync_small_tree :
  sync quiet_world None small_tree (connected "/r")
  = (Return tt,
     mkState (self (connected "/r"))
       [Print "Creating folder /lib";
        Call board0 (md "/lib");
        Print "Copying /lib/a.py";
        Call board0 (put (Path.of_string "/r/lib/a.py") "/lib/a.py");
        Print "Copying /main.py";
        Call board0 (put (Path.of_string "/r/main.py") "/main.py")]).
Proof. reflexivity. Qed.

(** A whole run of [main] against a board that answers. *)
Example main_small_tree :
  out (snd (main quiet_world (Some "/r") "/dev/ttyUSB0" false "/home/u"
              small_tree (fresh ".")))
  = [New false "ser:/dev/ttyUSB0" false;
     Print "Connected to esp32";
     Print "Start syncing folder '/r' to board at '/dev/ttyUSB0'";
     Print "Creating folder /lib";
     Call board0 (md "/lib");
     Print "Copying /lib/a.py";
     Call board0 (put (Path.of_string "/r/lib/a.py") "/lib/a.py");
     Print "Copying /main.py";
     Call board0 (put (Path.of_string "/r/main.py") "/main.py");
     Call board0 close].
Proof. reflexivity. Qed.

(** * Further properties *)

(** ** The remote path, when the folder is a prefix *)

Lemma prefix_self_app (a b : string) : prefix a (a ++ b) = true.
Proof.
  induction a as [|c a IH]; [now destruct b|].
  cbn. destruct (ascii_dec c c) as [_|N]; [exact IH | now elim N].
Qed.

Lemma drop_length_app (a b : string) :
  Str.drop (String.length a) (a ++ b) = b.
Proof. induction a as [|c a IH]; [apply drop_0 | exact IH]. Qed.

Lemma find_prefix (a b : string) : Str.find a (a ++ b) = Some 0.
Proof.
  destruct a as [|c a]; [now destruct b|].
  change ((String c a ++ b)%string) with (String c (a ++ b)).
  unfold Str.find; fold Str.find.
  change (String c (a ++ b)) with ((String c a ++ b)%string).
  now rewrite prefix_self_app.
Qed.

Lemma replace_strips_prefix (old rest : string) :
  Str.find old rest = None ->
  Str.replace old "" (old ++ rest) = rest.
Proof.
  intros Hnone.
  rewrite replace_unfold, find_prefix. cbn [Str.take plus append].
  rewrite drop_length_app, replace_unfold, Hnone. reflexivity.
Qed.

Lemma join_snoc (ns : list string) (n : string) :
  ns <> [] ->
  Str.join "/" (ns ++ [n]) = (Str.join "/" ns ++ "/" ++ n)%string.
Proof.
  induction ns as [|a ns IH]; [now intros H|]. intros _.
  destruct ns as [|b ns].
  - reflexivity.
  - change (Str.join "/" ((a :: b :: ns) ++ [n]))
      with (a ++ "/" ++ Str.join "/" ((b :: ns) ++ [n]))%string.
    rewrite IH by discriminate.
    change (Str.join "/" (a :: b :: ns))
      with (a ++ "/" ++ Str.join "/" (b :: ns))%string.
    induction a as [|c a IHa]; [reflexivity|].
    cbn. f_equal. exact IHa.
Qed.

Lemma append_assoc (x y z : string) :
  (x ++ y ++ z = (x ++ y) ++ z)%string.
Proof. induction x as [|c x IH]; [reflexivity | cbn; now rewrite IH]. Qed.

Lemma as_posix_child (f : PosixPath) (n : string) :
  names f <> [] ->
  Path.as_posix (Path.child f n) = (Path.as_posix f ++ "/" ++ n)%string.
Proof.
  intros Hne. destruct f as [r ns]. cbn [names] in Hne.
  destruct ns as [|a ns]; [now elim Hne|].
  pose proof (@join_snoc (a :: ns) n Hne) as Hj.
  unfold Path.as_posix, Path.child; cbn [root names].
  change ((a :: ns) ++ [n])%list with (a :: ns ++ [n])%list in *.
  destruct r as [|c r]; rewrite Hj; apply append_assoc.
Qed.

(** X11: when the folder string is the text of the directory being walked
    (a directory with at least one component) and does not occur in
    ["/" ++ name], the entry [name] of that directory goes to the remote
    path ["/" ++ name]: the replacement then is the prefix strip it is
    meant to be. *)
Theorem remote_path_of_top_entry (s : MPSync) (f : PosixPath) (n : string) :
  names f <> [] ->
  folder s = Path.as_posix f ->
  Str.find (folder s) ("/" ++ n) = None ->
  remote_path s (Path.child f n) = ("/" ++ n)%string.
Proof.
  intros Hne Hf Hnone. unfold remote_path.
  rewrite as_posix_child by exact Hne. rewrite <- Hf.
  now apply replace_strips_prefix.
Qed.

Lemma remote_path_of_top_entry_witness :
  remote_path (self (connected "/home/u/proj"))
    (Path.child (Path.of_string "/home/u/proj") "main.py")
  = "/main.py".
Proof.
  apply (@remote_path_of_top_entry (self (connected "/home/u/proj"))
           (Path.of_string "/home/u/proj") "main.py").
  - discriminate.
  - reflexivity.
  - reflexivity.
Defined.

Lemma replace_single_char (c : ascii) (s : string) :
  Str.find (String c "") (Str.replace (String c "") "" s) = None.
Proof.
  unfold Str.replace.
  induction s as [|a s IH]; [reflexivity|].
  unfold Str.replace_scan; fold Str.replace_scan.
  cbn [prefix String.length pred].
  destruct (ascii_dec c a) as [E|N].
  - destruct s; exact IH.
  - unfold Str.find; fold Str.find. cbn [prefix].
    destruct (ascii_dec c a) as [E|_]; [now elim N|].
    now rewrite IH.
Qed.

(** X12: when the folder is a single character, as the default ["."] of
    the constructor is, that character occurs nowhere in a remote path:
    the dots of file names go with it. *)
Theorem remote_path_loses_folder_char
  (s : MPSync) (c : ascii) (p : PosixPath) :
  folder s = String c "" ->
  Str.find (String c "") (remote_path s p) = None.
Proof.
  intros Hf. unfold remote_path. rewrite Hf. apply replace_single_char.
Qed.

Lemma remote_path_loses_folder_char_witness :
  Str.find "." (remote_path (self (connected "."))
                  (Path.child (Path.of_string ".") "boot.py")) = None
  /\ remote_path (self (connected "."))
       (Path.child (Path.of_string ".") "boot.py") = "bootpy".
Proof.
  split; [|reflexivity].
  apply (@remote_path_loses_folder_char (self (connected ".")) "."%char).
  reflexivity.
Defined.

(** ** [_delete] *)

(** X1: on a session with a handle, [_delete] prints its line and issues
    exactly one remove request, for the very remote path that [_copy_file]
    uploads the same local path to and [_create_folder] makes it at;
    whatever the request raises, a [RemoteIOError] included, [_delete]
    raises, and the session is left as it was. *)
Theorem delete_targets_uploaded_path
  (W : World) (st : state) (o : MpFileExplorer) (p : PosixPath) :
  _explorer (self st) = Some o ->
  exists dst,
    emitted st (snd (_delete W p st))
    = [Print ("Deleting " ++ dst); Call o (rm dst)]
    /\ emitted st (snd (_copy_file W p st))
       = [Print ("Copying " ++ dst); Call o (put p dst)]
    /\ (exists tail,
          emitted st (snd (_create_folder W p st))
          = Print ("Creating folder " ++ dst) :: Call o (md dst) :: tail)
    /\ self (snd (_delete W p st)) = self st
    /\ fst (_delete W p st)
       = match respond W (out st ++ [Print ("Deleting " ++ dst)]) o (rm dst)
         with
         | None => Return tt
         | Some e => Raise e
         end.
Proof.
  intros Ho. exists (remote_path (self st) p).
  assert (Hdel : _delete W p st
                 = (match respond W
                            (out st ++ [Print ("Deleting "
                                          ++ remote_path (self st) p)])
                            o (rm (remote_path (self st) p))
                    with
                    | None => Return tt
                    | Some e => Raise e
                    end,
                    mkState (self st)
                      (out st ++ [Print ("Deleting "
                                    ++ remote_path (self st) p);
                                  Call o (rm (remote_path (self st) p))]))).
  { destruct st as [s l]. cbn [self out] in *.
    unfold _delete, bind, get_self, print, emit, explorer, invoke, ret.
    cbn -[append remote_path]. rewrite Ho. cbn -[append remote_path].
    rewrite <- app_assoc.
    destruct (respond W _ o _); reflexivity. }
  rewrite Hdel. cbn [fst snd self out].
  split; [now apply emitted_app|].
  split; [apply emitted_app; now apply copy_file_log|].
  split.
  - destruct (@create_folder_log W st o p Ho) as [tail Ht].
    exists tail. now apply emitted_app.
  - split; reflexivity.
Qed.

Lemma delete_targets_uploaded_path_witness :
  exists dst,
    emitted (connected "/r")
      (snd (_delete brittle_world (Path.of_string "/r/old.py")
              (connected "/r")))
    = [Print ("Deleting " ++ dst); Call board0 (rm dst)]
    /\ emitted (connected "/r")
         (snd (_copy_file brittle_world (Path.of_string "/r/old.py")
                 (connected "/r")))
       = [Print ("Copying " ++ dst);
          Call board0 (put (Path.of_string "/r/old.py") dst)].
Proof.
  destruct (@delete_targets_uploaded_path brittle_world (connected "/r")
              board0 (Path.of_string "/r/old.py") eq_refl)
    as (dst & H1 & H2 & _).
  exists dst. split; assumption.
Defined.

(** ** [disconnect], twice *)

(** X2: a [disconnect] that returned [True] has made the next one a no-op
    that returns [False] and asks nothing of the board; a [disconnect]
    that returned [False] or raised has left the session object as it
    was, and what it raised is no [RemoteIOError]. *)
Theorem disconnect_twice (W : World) (st : state) :
  (fst (disconnect W st) = Return true ->
   disconnect W (snd (disconnect W st))
   = (Return false, snd (disconnect W st)))
  /\ (fst (disconnect W st) = Return false ->
      self (snd (disconnect W st)) = self st)
  /\ (forall e,
        fst (disconnect W st) = Raise e ->
        self (snd (disconnect W st)) = self st
        /\ is_RemoteIOError e = false).
Proof.
  rewrite (disconnect_unfold W st).
  destruct (_explorer (self st)) as [o|] eqn:Ho.
  - destruct (respond W (out st) o close) as [e|].
    + destruct (is_RemoteIOError e) eqn:He; cbn [fst snd self].
      * split; [discriminate|]. split; [reflexivity | discriminate].
      * split; [discriminate|]. split; [discriminate|].
        intros e' [= <-]. split; [reflexivity | exact He].
    + cbn [fst snd]. split; [|split; discriminate].
      intros _. now rewrite disconnect_unfold.
  - cbn [fst snd]. split; [discriminate|]. split; [reflexivity|].
    discriminate.
Qed.

Lemma disconnect_twice_witness :
  disconnect quiet_world (snd (disconnect quiet_world (connected ".")))
  = (Return false, snd (disconnect quiet_world (connected ".")))
  /\ self (snd (disconnect stuck_world (connected ".")))
     = self (connected ".").
Proof.
  split.
  - apply (proj1 (disconnect_twice quiet_world (connected "."))).
    reflexivity.
  - apply (proj1 (proj2 (disconnect_twice stuck_world (connected ".")))).
    reflexivity.
Defined.

(** ** More on [connect] *)

Section ConnectShape.

Variable W : World.

Lemma connect_event_config (s : MPSync) (x : option MpFileExplorer)
  (h : option MpFileExplorer) (e : event) :
  connect_event (set_explorer x s) h e <-> connect_event s h e.
Proof. destruct e; reflexivity. Qed.

(** What the loop adds: constructions of the configured kind, each
    followed by a line, and never more of them than indices. *)
Lemma attempts_shape (h : option MpFileExplorer) (indices : list nat) :
  forall st,
    exists new x,
      snd (attempts W indices st)
      = mkState (set_explorer x (self st)) (out st ++ new)
      /\ attempts_made new <= List.length indices
      /\ Forall (connect_event (self st) h) new
      /\ (indices = [] -> x = _explorer (self st)).
Proof.
  induction indices as [|i rest IH]; intros st.
  - exists [], (_explorer (self st)). rewrite app_nil_r.
    destruct st as [[] l]. repeat split; auto; try (cbn; lia).
  - rewrite attempts_cons; cbv zeta.
    destruct (construct W (out st) _ _ _) as [o|e].
    + destruct (truthy o).
      * exists [construction (self st);
                Print ("Connected to " ++ sysname o)], (Some o).
        cbn [snd]. split; [reflexivity|]. split; [cbn; lia|].
        split; [|discriminate]. repeat constructor.
      * set (st2 := mkState _ _).
        destruct (IH st2) as (new & x & Hsnd & Hn & Hall & _).
        exists ([construction (self st); Print (attempt_line (self st) i)]
                  ++ new)%list, x.
        rewrite Hsnd. unfold st2; cbn [self out].
        split; [now rewrite <- app_assoc|].
        split; [rewrite attempts_made_app; cbn in *; lia|].
        split; [|discriminate].
        apply Forall_app. split; [repeat constructor|].
        revert Hall. apply Forall_impl. intros ev.
        unfold st2; cbn [self]. apply connect_event_config.
    + exists [construction (self st)], (_explorer (self st)). cbn [snd].
      split; [destruct st as [[] l]; reflexivity|].
      split; [cbn; lia|]. split; [|discriminate]. repeat constructor.
Qed.

(** The loop returns nothing but [True]; then the handle is the object
    made last, it tests true, and its name is the last line. *)
Lemma attempts_return (indices : list nat) :
  forall st b st',
    attempts W indices st = (Return (Some b), st') ->
    b = true
    /\ exists o pre,
         _explorer (self st') = Some o
         /\ truthy o = true
         /\ out st'
            = (out st ++ pre ++ [Print ("Connected to " ++ sysname o)])%list.
Proof.
  induction indices as [|i rest IH]; intros st b st'.
  - cbn. discriminate.
  - rewrite attempts_cons; cbv zeta.
    destruct (construct W (out st) _ _ _) as [o|e]; [|discriminate].
    destruct (truthy o) eqn:Ht.
    + intros [= <- <-]. split; [reflexivity|].
      exists o, [construction (self st)]. cbn [self out _explorer set_explorer].
      repeat split; auto.
    + intros H. apply IH in H. destruct H as (-> & o' & pre & Ho & Hto & Hout).
      split; [reflexivity|].
      exists o', ([construction (self st); Print (attempt_line (self st) i)]
                    ++ pre)%list.
      repeat split; auto. rewrite Hout. cbn [out].
      now rewrite <- !app_assoc.
Qed.

Lemma disconnect_shape (st : state) :
  exists r s1 d,
    disconnect W st = (r, mkState s1 (out st ++ d))
    /\ attempts_made d = 0
    /\ Forall (connect_event (self st) (_explorer (self st))) d
    /\ (s1 = self st \/ s1 = set_explorer None (self st)).
Proof.
  rewrite disconnect_unfold. destruct st as [s l]; cbn [self out].
  destruct (_explorer s) as [o|] eqn:Ho.
  - destruct (respond W l o close) as [e|].
    + destruct (is_RemoteIOError e).
      * exists (Return false), s, [Call o close; Print (str e)].
        repeat split; auto. repeat constructor.
      * exists (Raise e), s, [Call o close].
        repeat split; auto. repeat constructor.
    + exists (Return true), (set_explorer None s), [Call o close].
      repeat split; auto. repeat constructor.
  - exists (Return false), s, []. rewrite app_nil_r. repeat split; auto.
Qed.

Lemma connect_shape (st : state) :
  exists new,
    out (snd (connect W st)) = (out st ++ new)%list
    /\ attempts_made new <= CONNECT_TRIES
    /\ Forall (connect_event (self st) (_explorer (self st))) new.
Proof.
  set (h := _explorer (self st)).
  rewrite connect_unfold; cbv zeta.
  destruct (disconnect_shape st) as (r & s1 & d & -> & Hd & Hall & Hs1).
  fold h in Hall.
  assert (Hline : forall l, Forall (connect_event (self st) h) [Print l])
    by (intros l; repeat constructor).
  assert (Hz : forall l, attempts_made [Print l] = 0) by reflexivity.
  assert (Hcaught : forall e st2 new2,
             out st2 = (out st ++ new2)%list ->
             attempts_made new2 <= CONNECT_TRIES ->
             Forall (connect_event (self st) h) new2 ->
             exists new,
               out (snd (if is_connect_error e
                         then (Return false,
                               mkState (self (mkState (self st2)
                                                (out st2 ++ [Print (str e)])))
                                 (out (mkState (self st2)
                                         (out st2 ++ [Print (str e)]))
                                  ++ [Print ("could not connect to board "
                                               ++ port (self st) ++ "!")]))
                         else (Raise e, st2)))
               = (out st ++ new)%list
               /\ attempts_made new <= CONNECT_TRIES
               /\ Forall (connect_event (self st) h) new).
  { intros e st2 new2 Ho Hn Hf. destruct (is_connect_error e); cbn [snd out].
    - exists (new2 ++ [Print (str e)]
                ++ [Print ("could not connect to board "
                             ++ port (self st) ++ "!")])%list.
      split; [rewrite Ho; now rewrite <- !app_assoc|].
      split; [rewrite !attempts_made_app, !Hz; lia|].
      repeat (apply Forall_app; split); auto.
    - exists new2. auto. }
  destruct r as [b|e].
  - destruct (negb _ || _).
    + cbn [snd out self].
      eexists (d ++ [_])%list. split; [now rewrite <- app_assoc|].
      split; [rewrite attempts_made_app, Hd, Hz; lia|].
      apply Forall_app. split; [exact Hall | apply Hline].
    + destruct (attempts_shape h (seq 0 CONNECT_TRIES)
                  (mkState s1 (out st ++ d)))
        as (new & x & Hsnd & Hn & Hnew & _).
      cbn [self out] in Hsnd, Hnew. rewrite length_seq in Hn.
      assert (Hnew' : Forall (connect_event (self st) h) new).
      { destruct Hs1 as [-> | ->]; [exact Hnew|].
        revert Hnew. apply Forall_impl. intros ev.
        apply connect_event_config. }
      assert (Hda : attempts_made (d ++ new) <= CONNECT_TRIES)
        by (rewrite attempts_made_app, Hd; lia).
      assert (Hfa : Forall (connect_event (self st) h) (d ++ new))
        by (apply Forall_app; now split).
      destruct (attempts W (seq 0 CONNECT_TRIES) (mkState s1 (out st ++ d)))
        as [[[b'|]|e] st2]; cbn [snd] in Hsnd; subst st2.
      * cbn [snd out]. exists (d ++ new)%list.
        split; [now rewrite <- app_assoc | now split].
      * cbn [snd out self].
        eexists ((d ++ new) ++ [_])%list.
        split; [now rewrite <- !app_assoc|].
        split; [rewrite attempts_made_app, Hz; lia|].
        apply Forall_app. split; [exact Hfa | apply Hline].
      * apply (Hcaught e _ (d ++ new)%list); auto.
        cbn [out]. now rewrite <- app_assoc.
  - apply (Hcaught e _ d); auto. rewrite Hd. lia.
Qed.

End ConnectShape.

(** X3: a [connect] that returns [True] leaves a handle that tests true;
    the property [explorer] then returns it without raising, and the last
    line printed names it. *)
Theorem connect_true_gives_live_handle (W : World) (st : state) :
  fst (connect W st) = Return true ->
  exists o pre,
    _explorer (self (snd (connect W st))) = Some o
    /\ truthy o = true
    /\ explorer (snd (connect W st)) = (Return o, snd (connect W st))
    /\ out (snd (connect W st))
       = (pre ++ [Print ("Connected to " ++ sysname o)])%list.
Proof.
  rewrite connect_unfold; cbv zeta.
  destruct (disconnect W st) as [[b|e] st1].
  - destruct (negb _ || _); [discriminate|].
    destruct (attempts W (seq 0 CONNECT_TRIES) st1) as [[[b'|]|e] st2] eqn:Ha.
    + cbn [fst snd]. intros [= ->].
      apply attempts_return in Ha.
      destruct Ha as (_ & o & pre & Ho & Ht & Hout).
      exists o, (out st1 ++ pre)%list. repeat split; auto.
      * unfold explorer, bind, get_self. cbn. now rewrite Ho.
      * now rewrite Hout, app_assoc.
    + discriminate.
    + destruct (is_connect_error e); discriminate.
  - destruct (is_connect_error e); discriminate.
Qed.

Lemma connect_true_gives_live_handle_witness :
  exists o,
    _explorer (self (snd (connect slow_world (fresh ".")))) = Some o
    /\ truthy o = true.
Proof.
  destruct (@connect_true_gives_live_handle slow_world (fresh ".") eq_refl)
    as (o & pre & Ho & Ht & _).
  exists o. split; assumption.
Defined.

(** X4: whatever the board, the constructors and the session, one
    [connect] constructs at most [CONNECT_TRIES] explorers. *)
Theorem connect_attempts_bounded (W : World) (st : state) :
  attempts_made (emitted st (snd (connect W st))) <= CONNECT_TRIES.
Proof.
  destruct (connect_shape W st) as (new & Hnew & Hn & _).
  now rewrite (@emitted_app _ _ _ Hnew).
Qed.

(** X6: everything [connect] asks of the outside follows the session it
    was called on: every explorer it constructs is of the class the
    caching flag selects, at the address ["ser:" ++ port], with the reset
    flag of the session; and the only method it calls is [close], on the
    handle the session held. *)
Theorem connect_follows_configuration (W : World) (st : state) :
  Forall (connect_event (self st) (_explorer (self st)))
    (emitted st (snd (connect W st))).
Proof.
  destruct (connect_shape W st) as (new & Hnew & _ & Hall).
  now rewrite (@emitted_app _ _ _ Hnew).
Qed.

Section ConnectRaise.

Variable W : World.

(** [k] objects that test false, then a construction that raises. *)
Lemma attempts_raise (e : exn) (k : nat) :
  forall (indices : list nat) (st : state),
    k < List.length indices ->
    (forall h c a r, attempts_made h < attempts_made (out st) + k ->
       exists o, construct W h c a r = Return o /\ truthy o = false) ->
    (forall h c a r, attempts_made h = attempts_made (out st) + k ->
       construct W h c a r = Raise e) ->
    exists new s2,
      attempts W indices st = (Raise e, mkState s2 (out st ++ new))
      /\ attempts_made new = k + 1.
Proof.
  induction k as [|k IH]; intros [|i rest] st Hlen Hfail Hraise;
    try (cbn in Hlen; lia); rewrite attempts_cons; cbv zeta.
  - rewrite Hraise by lia.
    exists [construction (self st)], (self st). split; reflexivity.
  - destruct (Hfail (out st) (caching (self st)) (address (self st))
                (reset (self st))) as (o1 & -> & ->); [lia|].
    set (st2 := mkState _ _).
    assert (Hn : attempts_made (out st2) = attempts_made (out st) + 1).
    { unfold st2; cbn [out]. now rewrite attempts_made_app. }
    destruct (IH rest st2) as (new & s2 & -> & Hnew).
    + cbn in Hlen. lia.
    + intros h c a r Hh. apply Hfail. lia.
    + intros h c a r Hh. apply Hraise. lia.
    + exists ([construction (self st); Print (attempt_line (self st) i)]
                ++ new)%list, s2.
      split.
      * unfold st2; cbn [self out]. rewrite <- app_assoc. reflexivity.
      * rewrite attempts_made_app, Hnew. reflexivity.
Qed.

End ConnectRaise.

(** X5: an exception of a constructor is not retried.  With a usable port
    and a handle held from before (if any) whose [close] raises nothing
    but [RemoteIOError]: if the first [k < CONNECT_TRIES] constructions
    hand out objects that test false and the next one raises [e], then
    [connect] has made exactly [k + 1] constructions; it returns [False]
    when [e] is a [PyboardError], [ConError] or [AttributeError], and
    raises [e] otherwise. *)
Theorem connect_raise_ends_loop
  (W : World) (st : state) (k : nat) (e : exn) :
  let p := Path.of_string (port (self st)) in
  let n0 := attempts_made (out st) in
  path_exists W p = true ->
  path_is_dir W p = false ->
  (forall o x,
     _explorer (self st) = Some o ->
     respond W (out st) o close = Some x ->
     is_RemoteIOError x = true) ->
  k < CONNECT_TRIES ->
  (forall h c a r, attempts_made h < n0 + k ->
     exists o, construct W h c a r = Return o /\ truthy o = false) ->
  (forall h c a r, attempts_made h = n0 + k ->
     construct W h c a r = Raise e) ->
  attempts_made (emitted st (snd (connect W st))) = k + 1
  /\ fst (connect W st)
     = if is_connect_error e then Return false else Raise e.
Proof.
  intros p n0 Hex Hdir Hclose Hk Hfail Hraise.
  assert (Hcond : negb (path_exists W p) || path_is_dir W p = false)
    by now rewrite Hex, Hdir.
  destruct (disconnect_effect W st) as (r & s1 & d & Hdis & Hd & _ & Hr).
  assert (Hb : exists b, r = Return b).
  { destruct r as [b|x]; [now exists b|].
    destruct (Hr x eq_refl) as (o & Ho & Hresp & Hx & _).
    rewrite (Hclose _ _ Ho Hresp) in Hx. discriminate. }
  destruct Hb as (b & ->).
  set (st1 := mkState s1 (out st ++ d)) in *.
  assert (Hn1 : attempts_made (out st1) = n0).
  { unfold st1; cbn [out]. rewrite attempts_made_app, Hd. apply Nat.add_0_r. }
  destruct (@attempts_raise W e k (seq 0 CONNECT_TRIES) st1)
    as (new & s2 & Hatt & Hnew).
  - now rewrite length_seq.
  - intros h c a r Hh. apply Hfail. lia.
  - intros h c a r Hh. apply Hraise. lia.
  - rewrite connect_unfold; cbv zeta. fold p. rewrite Hdis, Hcond, Hatt.
    destruct (is_connect_error e); cbn [fst snd self out].
    + split; [|reflexivity].
      erewrite emitted_app
        by (unfold st1; cbn [out]; rewrite <- !app_assoc; reflexivity).
      rewrite !attempts_made_app, Hd, Hnew. cbn. lia.
    + split; [|reflexivity].
      erewrite emitted_app
        by (unfold st1; cbn [out]; rewrite <- !app_assoc; reflexivity).
      rewrite !attempts_made_app, Hd, Hnew. reflexivity.
Qed.

Lemma connect_raise_ends_loop_witness :
  attempts_made
    (emitted (fresh ".") (snd (connect flaky_world (fresh ".")))) = 2
  /\ fst (connect flaky_world (fresh ".")) = Return false.
Proof.
  apply (@connect_raise_ends_loop flaky_world (fresh ".") 1
           (ConError "line lost") eq_refl eq_refl).
  - intros o x Ho. discriminate Ho.
  - unfold CONNECT_TRIES. lia.
  - intros h c a r Hh. exists husk.
    unfold flaky_world; cbn [construct].
    assert (E : Nat.ltb (attempts_made h) 1 = true)
      by (apply Nat.ltb_lt; cbn in Hh; lia).
    rewrite E. split; reflexivity.
  - intros h c a r Hh.
    unfold flaky_world; cbn [construct].
    assert (E : Nat.ltb (attempts_made h) 1 = false)
      by (apply Nat.ltb_ge; cbn in Hh; lia).
    now rewrite E.
Defined.

(** ** More on the walk *)

(** X7: [sync] leaves the session object as it found it (it neither
    connects nor disconnects nor touches the configuration) and only adds
    to the log, whatever the tree and the answers of the board, also when
    it raises. *)
Theorem sync_keeps_session
  (W : World) (fo : option PosixPath) (entries : list node) (st : state) :
  self (snd (sync W fo entries st)) = self st
  /\ out (snd (sync W fo entries st))
     = (out st ++ emitted st (snd (sync W fo entries st)))%list.
Proof.
  rewrite sync_is_walk.
  destruct (walk_frame W (start_dir (self st) fo) entries st)
    as (Hs & new & Hnew).
  split; [exact Hs|]. now rewrite (@emitted_app _ _ _ Hnew).
Qed.

Section WalkCompose.

Variable W : World.

Lemma walk_single (f : PosixPath) (e : node) (st : state) :
  walk W f [e] st = sync_entry W f e st.
Proof.
  rewrite walk_cons. now destruct (sync_entry W f e st) as [[[]|x] st1].
Qed.

(** Walking a listing is walking its parts one after the other. *)
Lemma walk_app (f : PosixPath) (a b : list node) :
  forall st, walk W f (a ++ b) st = (walk W f a >> walk W f b) st.
Proof.
  induction a as [|e a IH]; intros st; [reflexivity|].
  rewrite <- app_comm_cons, walk_cons. unfold bind at 1. rewrite walk_cons.
  destruct (sync_entry W f e st) as [[[]|x] st1]; [|reflexivity].
  rewrite IH. reflexivity.
Qed.

Lemma walk_prune (entries : list node) :
  forall f st, walk W f (prune entries) st = walk W f entries st.
Proof.
  assert (Hlist : forall es,
             Forall (fun e => forall f st,
                         walk W f (prune_entry e) st = sync_entry W f e st)
               es ->
             forall f st, walk W f (prune es) st = walk W f es st).
  { induction 1 as [|e es He _ IH]; intros f st; [reflexivity|].
    unfold prune; cbn [flat_map]. fold (prune es).
    rewrite walk_app, walk_cons. unfold bind. rewrite He.
    destruct (sync_entry W f e st) as [[[]|x] st1]; [apply IH | reflexivity]. }
  apply Hlist.
  induction entries as [|e es IHes]; constructor; [|exact IHes].
  clear es IHes. induction e as [n | n cs IHcs | n] using node_tree_ind;
    intros f st.
  - apply walk_single.
  - cbn [prune_entry]. fold (prune cs).
    rewrite walk_single, !sync_entry_dir.
    destruct (_create_folder W (Path.child f n) st) as [[[]|x] st1];
      [|reflexivity].
    now apply Hlist.
  - reflexivity.
Qed.

End WalkCompose.

(** X8: entries that are neither file nor directory do not count, at any
    depth: [sync] over a tree and over the tree without them end with the
    same result, the same session and the same log. *)
Theorem sync_skips_other_entries
  (W : World) (fo : option PosixPath) (entries : list node) (st : state) :
  sync W fo (prune entries) st = sync W fo entries st.
Proof. rewrite !sync_is_walk. apply walk_prune. Qed.

Example prune_mixed_tree : prune mixed_tree = small_tree.
Proof. reflexivity. Qed.

Section WalkPlan.

Variable W : World.
Variable o : MpFileExplorer.

Lemma walk_follows_plan (entries : list node) :
  forall f st,
    _explorer (self st) = Some o ->
    follows_plan o (plan (folder (self st)) f entries) st
      (fst (walk W f entries st)) (snd (walk W f entries st)).
Proof.
  assert (Hlist : forall es,
             Forall (fun e => forall f st,
                         _explorer (self st) = Some o ->
                         follows_plan o (plan_entry (folder (self st)) f e) st
                           (fst (sync_entry W f e st))
                           (snd (sync_entry W f e st))) es ->
             forall f st,
               _explorer (self st) = Some o ->
               follows_plan o (plan (folder (self st)) f es) st
                 (fst (walk W f es st)) (snd (walk W f es st))).
  { unfold follows_plan.
    induction 1 as [|e es He _ IH]; intros f st Ho.
    - exists [], []. rewrite app_nil_r. repeat split.
    - rewrite walk_cons. unfold plan; cbn [flat_map].
      fold (plan (folder (self st)) f es). rewrite map_app.
      destruct (He f st Ho) as (new1 & rest1 & Ho1 & Hs1 & Hp1 & Hr1).
      destruct (sync_entry W f e st) as [[[]|x] st1]; cbn [fst snd] in *.
      + rewrite (Hr1 eq_refl), app_nil_r in Hp1.
        assert (Ho' : _explorer (self st1) = Some o) by now rewrite Hs1.
        destruct (IH f st1 Ho') as (new2 & rest2 & Ho2 & Hs2 & Hp2 & Hr2).
        rewrite Hs1 in Hp2.
        exists (new1 ++ new2)%list, rest2.
        split; [now rewrite Ho2, Ho1, app_assoc|].
        split; [congruence|]. split; [|exact Hr2].
        now rewrite Hp1, Hp2, filter_app, app_assoc.
      + exists new1,
          (rest1 ++ map (Call o) (plan (folder (self st)) f es))%list.
        split; [exact Ho1|]. split; [exact Hs1|].
        split; [now rewrite Hp1, app_assoc | discriminate]. }
  apply Hlist.
  induction entries as [|e es IHes]; constructor; [|exact IHes].
  clear es IHes. induction e as [n | n cs IHcs | n] using node_tree_ind;
    intros f st Ho; unfold follows_plan.
  - cbn [sync_entry plan_entry]. rewrite copy_file_unfold; cbv zeta.
    rewrite Ho. cbn [fst snd]. unfold remote_path.
    set (dst := Str.replace _ _ _).
    exists [Print ("Copying " ++ dst); Call o (put (Path.child f n) dst)], [].
    split; [now rewrite <- app_assoc|]. repeat split.
  - rewrite sync_entry_dir. cbn [plan_entry].
    fold (plan (folder (self st)) (Path.child f n) cs).
    rewrite create_folder_unfold; cbv zeta. rewrite Ho. unfold remote_path.
    set (dst := Str.replace _ _ _).
    assert (Hdown : forall tail,
               (forall ev, In ev tail -> is_Call ev = false) ->
               follows_plan o
                 (md dst :: plan (folder (self st)) (Path.child f n) cs)
                 st
                 (fst (walk W (Path.child f n) cs
                         (mkState (self st)
                            (out st ++ Print ("Creating folder " ++ dst)
                               :: Call o (md dst) :: tail))))
                 (snd (walk W (Path.child f n) cs
                         (mkState (self st)
                            (out st ++ Print ("Creating folder " ++ dst)
                               :: Call o (md dst) :: tail))))).
    { intros tail Htail. unfold follows_plan.
      destruct (Hlist cs IHcs (Path.child f n)
                  (mkState (self st)
                     (out st ++ Print ("Creating folder " ++ dst)
                        :: Call o (md dst) :: tail)) Ho)
        as (new2 & rest2 & Ho2 & Hs2 & Hp2 & Hr2).
      cbn [self out] in *.
      exists ((Print ("Creating folder " ++ dst) :: Call o (md dst) :: tail)
                ++ new2)%list, rest2.
      split; [now rewrite Ho2, <- app_assoc|]. split; [exact Hs2|].
      split; [|exact Hr2].
      rewrite filter_app. cbn [map filter is_Call].
      assert (Ht : filter is_Call tail = []).
      { clear -Htail. induction tail as [|ev tail IH]; [reflexivity|].
        cbn [filter]. rewrite (Htail ev) by now left.
        apply IH. intros ev' Hin. apply Htail. now right. }
      rewrite Ht, Hp2. reflexivity. }
    destruct (respond W _ o (md dst)) as [x|].
    + destruct (is_RemoteIOError x).
      * rewrite <- app_assoc. apply Hdown.
        intros ev [<-|[]]. reflexivity.
      * cbn [fst snd].
        exists [Print ("Creating folder " ++ dst); Call o (md dst)],
          (map (Call o) (plan (folder (self st)) (Path.child f n) cs)).
        split; [now rewrite <- app_assoc|]. repeat split. discriminate.
    + rewrite <- app_assoc. apply Hdown. intros ev [].
  - exists [], []. rewrite app_nil_r. repeat split.
Qed.

(** With uploads that succeed and make-directory requests that raise
    nothing but [RemoteIOError], a walk returns. *)
Lemma walk_returns_when_tolerated (f : PosixPath) (entries : list node)
  (st : state) :
  tolerant W o ->
  _explorer (self st) = Some o ->
  fst (walk W f entries st) = Return tt.
Proof.
  intros [Hput Hmd] Ho.
  enough (H : _explorer (self st) = Some o ->
              fst (walk W f entries st) = Return tt
              /\ self (snd (walk W f entries st)) = self st)
    by now apply H.
  apply (@walk_run_ind_flat W
           (fun st r st' =>
              _explorer (self st) = Some o ->
              r = Return tt /\ self st' = self st)).
  - auto.
  - intros s s1 r s2 H1 H2 Hs. destruct (H1 Hs) as [_ E1].
    destruct H2 as [-> E2]; [now rewrite E1|]. split; congruence.
  - intros file s Hs. rewrite copy_file_unfold; cbv zeta. rewrite Hs.
    cbn [fst snd self]. now rewrite Hput.
  - intros d s Hs. rewrite create_folder_unfold; cbv zeta. rewrite Hs.
    destruct (respond W _ o _) as [x|] eqn:Hr; [|now split].
    rewrite (Hmd _ _ _ Hr). now split.
Qed.

End WalkPlan.

(** X9: on a session with a handle [o], the requests [sync] issues are, in
    order, a beginning of the plan of the tree (for each directory a
    make-directory request, then its entries; for each file an upload),
    whatever the board answers; and when [sync] returns normally they are
    the whole plan, one request for each directory and each file, every
    upload was taken by the board, and every make-directory request was
    either taken or refused with a [RemoteIOError]: a directory that was
    asked for need not have been made. *)
Theorem sync_requests_follow_plan
  (W : World) (fo : option PosixPath) (entries : list node) (st : state)
  (o : MpFileExplorer) :
  _explorer (self st) = Some o ->
  let asked := filter is_Call (emitted st (snd (sync W fo entries st))) in
  let wanted :=
    map (Call o)
      (plan (folder (self st)) (start_dir (self st) fo) entries) in
  (exists rest, wanted = (asked ++ rest)%list)
  /\ (fst (sync W fo entries st) = Return tt ->
      asked = wanted
      /\ forall pre post o' rq,
           emitted st (snd (sync W fo entries st))
           = (pre ++ Call o' rq :: post)%list ->
           match respond W (out st ++ pre) o' rq with
           | None => True
           | Some e => is_md rq = true /\ is_RemoteIOError e = true
           end).
Proof.
  intros Ho asked wanted. unfold asked, wanted. rewrite sync_is_walk.
  destruct (@walk_follows_plan W o entries (start_dir (self st) fo) st Ho)
    as (new & rest & Hnew & _ & Hp & Hr).
  rewrite (@emitted_app _ _ _ Hnew). split.
  - now exists rest.
  - intros Hret. split.
    + rewrite Hp, (Hr Hret). now rewrite app_nil_r.
    + intros pre post o' rq E.
      destruct (walk_obeys W (start_dir (self st) fo) entries st)
        as (new' & Hnew' & Hob).
      assert (new' = new)
        by (rewrite Hnew in Hnew'; now apply app_inv_head in Hnew').
      subst new'. rewrite E in Hob. apply obeys_at in Hob.
      destruct (respond W (out st ++ pre) o' rq) as [e|]; [|exact I].
      destruct (is_md rq && is_RemoteIOError e) eqn:Hsw.
      * now apply andb_true_iff in Hsw.
      * destruct Hob as [_ Habs]. rewrite Hret in Habs. discriminate Habs.
Qed.

Lemma sync_requests_follow_plan_witness :
  filter is_Call
    (emitted (connected "/r")
       (snd (sync grudging_world None mixed_tree (connected "/r"))))
  = [Call board0 (md "/lib");
     Call board0 (put (Path.of_string "/r/lib/a.py") "/lib/a.py");
     Call board0 (put (Path.of_string "/r/main.py") "/main.py")].
Proof.
  apply (proj2 (@sync_requests_follow_plan grudging_world None mixed_tree
                  (connected "/r") board0 eq_refl)).
  reflexivity.
Defined.

(** In that run every make-directory request was refused. *)
Example grudging_run_makes_nothing :
  sync grudging_world None mixed_tree (connected "/r")
  = sync grudging_world None small_tree (connected "/r")
  /\ forall h dst,
       respond grudging_world h board0 (md dst)
       = Some (RemoteIOError OtherFault "Invalid directory name").
Proof. split; reflexivity. Qed.

(** X10: on a session with a handle, when the board takes every upload
    and refuses make-directory requests with nothing but [RemoteIOError],
    [sync] returns normally, whatever the tree. *)
Theorem sync_returns_on_tolerant_board
  (W : World) (fo : option PosixPath) (entries : list node) (st : state)
  (o : MpFileExplorer) :
  _explorer (self st) = Some o ->
  tolerant W o ->
  fst (sync W fo entries st) = Return tt.
Proof.
  intros Ho Htol. rewrite sync_is_walk.
  now apply walk_returns_when_tolerated with o.
Qed.

Lemma sync_returns_on_tolerant_board_witness :
  fst (sync grudging_world None mixed_tree (connected "/r")) = Return tt.
Proof.
  apply (@sync_returns_on_tolerant_board grudging_world None mixed_tree
           (connected "/r") board0 eq_refl).
  split.
  - reflexivity.
  - intros h dst e [= <-]. reflexivity.
Defined.

(** ** More on the scoped session and [main] *)

Lemma with_unfold (W : World) (A : Type) (body : M A) (st : state) :
  with_ W body st =
    match connect W st with
    | (Return true, st1) =>
        let (rb, st2) := body st1 in
        match disconnect W st2 with
        | (Return true, st3) => (rb, st3)
        | (Return false, st3) => (Raise (Exception "can't disconnect"), st3)
        | (Raise e, st3) => (Raise e, st3)
        end
    | (Return false, st1) => (Raise (Exception "can't connect"), st1)
    | (Raise e, st1) => (Raise e, st1)
    end.
Proof.
  unfold with_, __enter__, __exit__, bind, ret, raise.
  destruct (connect W st) as [[[|]|e] st1]; try reflexivity.
  destruct (body st1) as [[a|e] st2];
    destruct (disconnect W st2) as [[[|]|e'] st3]; reflexivity.
Qed.

(** X13: a scoped session that ends normally ends disconnected: [connect]
    returned [True], the body returned, the body left a handle, the last
    thing that happened is the [close] of that very handle, and the handle
    of the session is null. *)
Theorem scoped_session_ends_disconnected
  (W : World) (A : Type) (body : M A) (st : state) (a : A) :
  fst (with_ W body st) = Return a ->
  _explorer (self (snd (with_ W body st))) = None
  /\ exists st1 st2 o,
       connect W st = (Return true, st1)
       /\ body st1 = (Return a, st2)
       /\ _explorer (self st2) = Some o
       /\ out (snd (with_ W body st)) = (out st2 ++ [Call o close])%list.
Proof.
  rewrite with_unfold.
  destruct (connect W st) as [[[|]|e] st1]; try discriminate.
  destruct (body st1) as [rb st2] eqn:Hb.
  rewrite (disconnect_unfold W st2).
  destruct (_explorer (self st2)) as [o|] eqn:Ho; [|discriminate].
  destruct (respond W (out st2) o close) as [e|].
  - destruct (is_RemoteIOError e); discriminate.
  - cbn [fst snd self out]. intros ->. split; [reflexivity|].
    exists st1, st2, o. repeat split; assumption.
Qed.

Lemma scoped_session_ends_disconnected_witness :
  _explorer
    (self (snd (with_ quiet_world
                  (sync quiet_world None small_tree) (fresh "/r"))))
  = None.
Proof.
  apply (proj1 (@scoped_session_ends_disconnected quiet_world unit
                  (sync quiet_world None small_tree) (fresh "/r") tt
                  eq_refl)).
Defined.

(** The folder [main] works on. *)
Lemma main_unfold (W : World) (args_folder : option string)
  (args_port : string) (args_verbose : bool) (cwd : string)
  (entries : list node) (st : state) :
  main W args_folder args_port args_verbose cwd entries st
  = let fld := match args_folder with
               | None => cwd
               | Some s => if String.eqb s "" then cwd else s
               end in
    with_ W
      (print ("Start syncing folder '" ++ fld ++ "' to board at '"
                ++ args_port ++ "'") >>
       sync W None entries)
      (mkState (__init__ fld args_port args_verbose false false) (out st)).
Proof. reflexivity. Qed.

(** X14: when the port does not exist or is a directory, [main] raises
    ["can't connect"] after the one line that says so: it constructs no
    explorer, asks nothing of any board and does not start to sync. *)
Theorem main_bad_port
  (W : World) (args_folder : option string) (args_port : string)
  (args_verbose : bool) (cwd : string) (entries : list node) (st : state) :
  path_exists W (Path.of_string args_port) = false
  \/ path_is_dir W (Path.of_string args_port) = true ->
  fst (main W args_folder args_port args_verbose cwd entries st)
  = Raise (Exception "can't connect")
  /\ emitted st
       (snd (main W args_folder args_port args_verbose cwd entries st))
     = [Print ("Port '" ++ args_port ++ "' does not exist or is a folder!")].
Proof.
  intros Hbad.
  assert (Hcond : negb (path_exists W (Path.of_string args_port))
                  || path_is_dir W (Path.of_string args_port) = true).
  { destruct Hbad as [-> | ->]; [reflexivity | apply orb_true_r]. }
  rewrite main_unfold; cbv zeta. rewrite with_unfold, connect_unfold.
  cbv zeta. rewrite disconnect_unfold. cbn [self out _explorer __init__ port].
  rewrite Hcond. cbn [fst snd]. split; [reflexivity|].
  now apply emitted_app.
Qed.

Lemma main_bad_port_witness :
  fst (main portless_world None "/dev/ttyUSB0" false "/home/u" small_tree
         (fresh "."))
  = Raise (Exception "can't connect").
Proof.
  apply (@main_bad_port portless_world None "/dev/ttyUSB0" false "/home/u"
           small_tree (fresh ".") (or_introl eq_refl)).
Defined.

Lemma no_construction_in_walk (l : list event) :
  Forall (fun e => creates_or_uploads e = true) l -> attempts_made l = 0.
Proof.
  induction 1 as [|e l He _ IH]; [reflexivity|].
  change (e :: l) with ([e] ++ l)%list. rewrite attempts_made_app, IH.
  destruct e as [line | c a r | o' rq]; try reflexivity. discriminate He.
Qed.

(** X15: a whole run.  With a usable port, a first construction that hands
    out an object [o] that tests true, a board that takes every upload to
    [o], refuses make-directory requests with nothing but [RemoteIOError]
    and closes without complaint, [main] returns normally after exactly
    one construction; what it asked of [o] is the plan of the tree under
    the folder followed by [close]; and the session ends without handle. *)
Theorem main_mirrors_tree
  (W : World) (args_folder : option string) (args_port : string)
  (args_verbose : bool) (cwd : string) (entries : list node) (st : state)
  (o : MpFileExplorer) :
  let fld := match args_folder with
             | None => cwd
             | Some s => if String.eqb s "" then cwd else s
             end in
  let run := main W args_folder args_port args_verbose cwd entries st in
  path_exists W (Path.of_string args_port) = true ->
  path_is_dir W (Path.of_string args_port) = false ->
  construct W (out st) false (MPF_PROTOCOL ++ ":" ++ args_port) false
  = Return o ->
  truthy o = true ->
  tolerant W o ->
  (forall h, respond W h o close = None) ->
  fst run = Return tt
  /\ filter is_Call (emitted st (snd run))
     = (map (Call o) (plan fld (Path.of_string fld) entries)
          ++ [Call o close])%list
  /\ attempts_made (emitted st (snd run)) = 1
  /\ _explorer (self (snd run)) = None.
Proof.
  intros fld run Hex Hdir Hc Ht Htol Hclose. unfold run.
  rewrite main_unfold; cbv zeta. fold fld. rewrite with_unfold.
  set (s0 := __init__ fld args_port args_verbose false false).
  set (line := ("Start syncing folder '" ++ fld ++ "' to board at '"
                  ++ args_port ++ "'")%string).
  assert (Hconn : connect W (mkState s0 (out st))
                  = (Return true,
                     mkState (set_explorer (Some o) s0)
                       (out st ++ [construction s0;
                                   Print ("Connected to " ++ sysname o)]))).
  { rewrite connect_unfold; cbv zeta. rewrite disconnect_unfold.
    cbn [self out]. change (_explorer s0) with (@None MpFileExplorer).
    change (port s0) with args_port. rewrite Hex, Hdir. cbn [negb orb].
    change (seq 0 CONNECT_TRIES) with (0 :: seq 1 4).
    rewrite attempts_cons; cbv zeta. cbn [self out].
    change (construct W (out st) (caching s0) (address s0) (reset s0))
      with (construct W (out st) false (MPF_PROTOCOL ++ ":" ++ args_port)
              false).
    rewrite Hc, Ht. reflexivity. }
  rewrite Hconn.
  set (st1 := mkState (set_explorer (Some o) s0)
                (out st ++ [construction s0;
                            Print ("Connected to " ++ sysname o);
                            Print line])).
  assert (Hbody : (print line >> sync W None entries)
                    (mkState (set_explorer (Some o) s0)
                       (out st ++ [construction s0;
                                   Print ("Connected to " ++ sysname o)]))
                  = walk W (Path.of_string fld) entries st1).
  { unfold bind, print, emit. cbn [self out]. rewrite <- app_assoc.
    reflexivity. }
  rewrite Hbody.
  assert (Ho1 : _explorer (self st1) = Some o) by reflexivity.
  pose proof (@walk_returns_when_tolerated W o (Path.of_string fld) entries
                st1 Htol Ho1) as Hret.
  destruct (@walk_follows_plan W o entries (Path.of_string fld) st1 Ho1)
    as (new & rest & Hnew & Hself & Hplan & Hrest).
  destruct (walk_creates_or_uploads W (Path.of_string fld) entries st1)
    as (new' & Hnew' & Hall).
  assert (new' = new)
    by (rewrite Hnew in Hnew'; now apply app_inv_head in Hnew').
  subst new'. apply no_construction_in_walk in Hall.
  rewrite (Hrest Hret), app_nil_r in Hplan.
  destruct (walk W (Path.of_string fld) entries st1) as [rb st2].
  cbn [fst snd] in *. subst rb.
  rewrite disconnect_unfold, Hself, Ho1, Hclose. cbn [fst snd self out].
  assert (Hout : (out st2 ++ [Call o close])%list
                 = (out st ++ [construction s0;
                               Print ("Connected to " ++ sysname o);
                               Print line]
                      ++ new ++ [Call o close])%list).
  { rewrite Hnew. unfold st1; cbn [out]. now rewrite <- !app_assoc. }
  erewrite emitted_app by (cbn [out]; exact Hout).
  split; [reflexivity|]. split; [|split; [|reflexivity]].
  - rewrite !filter_app. cbn [filter is_Call construction].
    rewrite <- Hplan. reflexivity.
  - rewrite !attempts_made_app, Hall. reflexivity.
Qed.

Lemma main_mirrors_tree_witness :
  filter is_Call
    (emitted (fresh ".")
       (snd (main grudging_world (Some "/r") "/dev/ttyUSB0" false "/home/u"
               mixed_tree (fresh "."))))
  = [Call board0 (md "/lib");
     Call board0 (put (Path.of_string "/r/lib/a.py") "/lib/a.py");
     Call board0 (put (Path.of_string "/r/main.py") "/main.py");
     Call board0 close].
Proof.
  apply (@main_mirrors_tree grudging_world (Some "/r") "/dev/ttyUSB0" false
           "/home/u" mixed_tree (fresh ".") board0
           eq_refl eq_refl eq_refl eq_refl).
  - split; [reflexivity|]. intros h dst e [= <-]. reflexivity.
  - reflexivity.
Defined.

(** X16: reconnecting closes first: on a session that holds a handle, the
    first thing [connect] does is to call [close] on it, before any
    construction and whatever the port is. *)
Theorem connect_closes_held_handle_first
  (W : World) (st : state) (o : MpFileExplorer) :
  _explorer (self st) = Some o ->
  exists tail,
    emitted st (snd (connect W st)) = Call o close :: tail.
Proof.
  intros Ho. rewrite connect_unfold; cbv zeta. rewrite disconnect_unfold, Ho.
  assert (Hext : forall (x : result bool) st1 l,
             out st1 = (out st ++ Call o close :: l)%list ->
             forall st2,
               (exists new, out st2 = (out st1 ++ new)%list) ->
               exists tail, emitted st st2 = Call o close :: tail).
  { intros _ st1 l H1 st2 [new H2]. exists (l ++ new)%list.
    apply emitted_app. rewrite H2, H1, <- app_assoc. reflexivity. }
  assert (Hloop : forall st1,
             exists new,
               out (snd (attempts W (seq 0 CONNECT_TRIES) st1))
               = (out st1 ++ new)%list).
  { intros st1.
    destruct (attempts_shape W None (seq 0 CONNECT_TRIES) st1)
      as (new & x & -> & _). now exists new. }
  destruct (respond W (out st) o close) as [e|].
  - destruct (is_RemoteIOError e).
    + set (st1 := mkState (self st) _).
      apply (Hext (Return false) st1 [Print (str e)] eq_refl).
      destruct (negb _ || _); [eexists; reflexivity|].
      destruct (Hloop st1) as [new Hnew].
      destruct (attempts W (seq 0 CONNECT_TRIES) st1) as [[[b|]|x] st2];
        cbn [snd] in *.
      * now exists new.
      * eexists. cbn [out]. rewrite Hnew, <- app_assoc. reflexivity.
      * destruct (is_connect_error x); cbn [snd out].
        -- eexists. rewrite Hnew, <- !app_assoc. reflexivity.
        -- now exists new.
    + set (st1 := mkState (self st) _).
      apply (Hext (Return false) st1 [] eq_refl).
      destruct (is_connect_error e); cbn [snd out].
      * eexists. rewrite <- !app_assoc. reflexivity.
      * exists []. now rewrite app_nil_r.
  - set (st1 := mkState (set_explorer None (self st)) _).
    apply (Hext (Return false) st1 [] eq_refl).
    destruct (negb _ || _); [eexists; reflexivity|].
    destruct (Hloop st1) as [new Hnew].
    destruct (attempts W (seq 0 CONNECT_TRIES) st1) as [[[b|]|x] st2];
      cbn [snd] in *.
    + now exists new.
    + eexists. cbn [out]. rewrite Hnew, <- app_assoc. reflexivity.
    + destruct (is_connect_error x); cbn [snd out].
      * eexists. rewrite Hnew, <- !app_assoc. reflexivity.
      * now exists new.
Qed.

Lemma connect_closes_held_handle_first_witness :
  exists tail,
    emitted (connected ".") (snd (connect quiet_world (connected ".")))
    = Call board0 close :: tail.
Proof.
  apply (@connect_closes_held_handle_first quiet_world (connected ".")
           board0 eq_refl).
Defined.

(** X17: a body that leaves the session without handle, for instance by
    calling [disconnect] itself, makes the scoped session fail: the
    wrapper raises ["can't disconnect"], whatever the body returned or
    raised, and calls nothing more. *)
Theorem scoped_session_body_disconnected
  (W : World) (A : Type) (body : M A) (st st1 st2 : state)
  (rb : result A) :
  connect W st = (Return true, st1) ->
  body st1 = (rb, st2) ->
  _explorer (self st2) = None ->
  with_ W body st = (Raise (Exception "can't disconnect"), st2).
Proof.
  intros Hc Hb Hno. rewrite with_unfold, Hc, Hb, disconnect_unfold, Hno.
  reflexivity.
Qed.

Lemma scoped_session_body_disconnected_witness :
  fst (with_ quiet_world (disconnect quiet_world) (fresh "."))
  = Raise (Exception "can't disconnect").
Proof.
  rewrite (@scoped_session_body_disconnected quiet_world bool
             (disconnect quiet_world) (fresh ".")
             (snd (connect quiet_world (fresh ".")))
             (snd (disconnect quiet_world
                     (snd (connect quiet_world (fresh ".")))))
             (Return true) eq_refl eq_refl eq_refl).
  reflexivity.
Defined.

(** * The retry loop and the handle, revisited *)

(** C2: the code departs from the claim.  The handler for the exceptions
    of a constructor sits outside the loop of [connect], so a construction
    that raises is the last one: on a fresh session with a usable port,
    when the first construction raises a [PyboardError], [ConError] or
    [AttributeError], [connect] prints it, gives up and returns [False]
    after that single construction, whatever the constructors would do on
    a second attempt. *)
Theorem connect_gives_up_on_first_raise
  (W : World) (st : state) (e : exn) :
  let s := self st in
  let p := Path.of_string (port s) in
  path_exists W p = true ->
  path_is_dir W p = false ->
  _explorer s = None ->
  built W s (out st) = Raise e ->
  is_connect_error e = true ->
  connect W st
  = (Return false,
     mkState s
       (out st ++ [construction s; Print (str e);
                   Print ("could not connect to board " ++ port s ++ "!")]))
  /\ attempts_made (emitted st (snd (connect W st))) = 1.
Proof.
  intros s p Hex Hdir Hno Hb He. unfold built in Hb.
  assert (Hrun : connect W st
                 = (Return false,
                    mkState s
                      (out st ++ [construction s; Print (str e);
                                  Print ("could not connect to board "
                                           ++ port s ++ "!")]))).
  { rewrite connect_unfold; cbv zeta. rewrite disconnect_unfold.
    fold s p. rewrite Hno, Hex, Hdir. cbn [negb orb].
    change (seq 0 CONNECT_TRIES) with (0 :: seq 1 4).
    rewrite attempts_cons; cbv zeta. fold s. rewrite Hb, He.
    cbn [self out]. rewrite <- !app_assoc. reflexivity. }
  split; [exact Hrun|]. rewrite Hrun. cbn [snd].
  now erewrite emitted_app by reflexivity.
Qed.

Lemma connect_gives_up_on_first_raise_witness :
  (built recovering_world (self (fresh "."))
     [construction (self (fresh "."))] = Return board0
   /\ truthy board0 = true)
  /\ fst (connect recovering_world (fresh ".")) = Return false
  /\ attempts_made
       (emitted (fresh ".") (snd (connect recovering_world (fresh "."))))
     = 1.
Proof.
  split; [split; reflexivity|].
  destruct (@connect_gives_up_on_first_raise recovering_world (fresh ".")
              (ConError "could not open port")
              eq_refl eq_refl eq_refl eq_refl eq_refl) as [Hrun Hone].
  split; [now rewrite Hrun | exact Hone].
Defined.

Section LastBuilt.

Variable W : World.

Lemma all_raised_nil (s : MPSync) (h : list event) : all_raised W s h [].
Proof. intros pre post H. now destruct pre. Qed.

Lemma all_raised_config (x : option MpFileExplorer) (s : MPSync)
  (h l : list event) :
  all_raised W (set_explorer x s) h l <-> all_raised W s h l.
Proof. reflexivity. Qed.

(** A line in front changes nothing. *)
Lemma all_raised_line (s : MPSync) (h l : list event) (x : string) :
  all_raised W s (h ++ [Print x]) l -> all_raised W s h (Print x :: l).
Proof.
  intros H pre post E. destruct pre as [|y pre]; [discriminate E|].
  injection E as <- E. destruct (H pre post E) as [e He].
  exists e. now rewrite <- app_assoc in He.
Qed.

(** Nor do events behind that are no constructions. *)
Lemma all_raised_app_quiet (s : MPSync) (h l t : list event) :
  all_raised W s h l -> attempts_made t = 0 -> all_raised W s h (l ++ t).
Proof.
  intros H Ht pre post E. apply app_split_elt in E.
  destruct E as [(m & E & _) | (m & _ & E)].
  - now apply (H pre m).
  - rewrite E, attempts_made_app in Ht.
    change (construction s :: post) with ([construction s] ++ post)%list in Ht.
    rewrite attempts_made_app in Ht. cbn in Ht. lia.
Qed.

(** What the loop leaves as handle unless it succeeds: the object of the
    last construction that handed one out, an object that tests false; or,
    if every construction raised, the handle it started with. *)
Lemma attempts_last_built (indices : list nat) :
  forall st,
    fst (attempts W indices st) <> Return (Some true) ->
    exists log,
      out (snd (attempts W indices st)) = (out st ++ log)%list
      /\ ((all_raised W (self st) (out st) log
           /\ _explorer (self (snd (attempts W indices st)))
              = _explorer (self st))
          \/ exists pre o post,
              log = (pre ++ construction (self st) :: post)%list
              /\ built W (self st) (out st ++ pre) = Return o
              /\ truthy o = false
              /\ all_raised W (self st)
                   (out st ++ pre ++ [construction (self st)]) post
              /\ _explorer (self (snd (attempts W indices st))) = Some o).
Proof.
  induction indices as [|i rest IH]; intros st.
  - intros _. exists []. rewrite app_nil_r. split; [reflexivity|].
    left. split; [apply all_raised_nil | reflexivity].
  - rewrite attempts_cons; cbv zeta.
    destruct (construct W (out st) _ _ _) as [o|e] eqn:Hc.
    + destruct (truthy o) eqn:Ht; [intros H; now elim H|].
      set (st2 := mkState _ _). intros Hne.
      destruct (IH st2 Hne) as (log2 & Hout & Hcases).
      exists (construction (self st) :: Print (attempt_line (self st) i)
                :: log2).
      split; [rewrite Hout; unfold st2; cbn [out];
              now rewrite <- app_assoc|].
      right. destruct Hcases as [[Hall Hh] | (pre & o2 & post & E & Hb & Hf
                                             & Hall & Hh)].
      * exists [], o, (Print (attempt_line (self st) i) :: log2).
        split; [reflexivity|]. rewrite app_nil_r.
        split; [exact Hc|]. split; [exact Ht|].
        split; [|now rewrite Hh].
        apply all_raised_line. rewrite <- app_assoc. exact Hall.
      * exists (construction (self st) :: Print (attempt_line (self st) i)
                  :: pre), o2, post.
        split; [now rewrite E|].
        split; [unfold st2 in Hb; cbn [self out] in Hb;
                now rewrite <- app_assoc in Hb|].
        split; [exact Hf|]. split; [|exact Hh].
        unfold st2 in Hall; cbn [self out] in Hall.
        now rewrite <- app_assoc in Hall.
    + intros _. cbn [snd self out]. exists [construction (self st)].
      split; [reflexivity|]. left. split; [|reflexivity].
      intros pre post E. destruct pre as [|y pre].
      * exists e. now rewrite app_nil_r.
      * injection E as _ E. now destruct pre.
Qed.

End LastBuilt.

(** C6, as amended: after a [connect] that returned [False] the handle is
    the object of the last construction of this [connect] that handed one
    out, an object that tests false, if any construction did; otherwise it
    is what the [disconnect] at the start left, which is null when there
    was no handle or its [close] returned, and the handle held before
    when its [close] raised.  So the handle is null exactly when that
    [disconnect] left it null and no construction handed out an object:
    the port was unusable, or the first construction raised. *)
Theorem failed_connect_handle (W : World) (st : state) :
  let s := self st in
  let p := Path.of_string (port s) in
  let st1 := snd (disconnect W st) in
  let final := snd (connect W st) in
  let log := emitted st1 final in
  fst (connect W st) = Return false ->
  (_explorer (self final) = None
   <-> _explorer (self st1) = None
       /\ ((path_exists W p = false \/ path_is_dir W p = true)
           \/ exists e,
               construct W (out st1) (caching s)
                 (MPF_PROTOCOL ++ ":" ++ port s) (reset s)
               = Raise e))
  /\ _explorer (self st1)
     = match fst (disconnect W st) with
       | Return true => None
       | _ => _explorer s
       end
  /\ ((all_raised W s (out st1) log
       /\ _explorer (self final) = _explorer (self st1))
      \/ exists pre o post,
          log = (pre ++ construction s :: post)%list
          /\ built W s (out st1 ++ pre) = Return o
          /\ truthy o = false
          /\ all_raised W s (out st1 ++ pre ++ [construction s]) post
          /\ _explorer (self final) = Some o).
Proof.
  intros s p st1 final log Hfalse.
  split; [exact (failed_connect_null_iff W st Hfalse)|].
  split.
  { unfold st1. rewrite disconnect_unfold. fold s.
    destruct (_explorer s) as [o|] eqn:Ho; [|exact Ho].
    destruct (respond W (out st) o close) as [e|]; [|reflexivity].
    destruct (is_RemoteIOError e); cbn [fst snd self]; exact Ho. }
  unfold log, final, st1. clear log final st1.
  revert Hfalse. rewrite connect_unfold; cbv zeta. fold s p.
  destruct (disconnect_effect W st) as (r & s1 & d & Hdis & _ & Hs1 & _).
  rewrite Hdis. cbn [snd]. set (st1 := mkState s1 (out st ++ d)).
  assert (Hall : forall h l, all_raised W s1 h l <-> all_raised W s h l)
    by (destruct Hs1 as [-> | ->]; reflexivity).
  assert (Hbuilt : forall h, built W s1 h = built W s h)
    by (destruct Hs1 as [-> | ->]; reflexivity).
  assert (Hcons : construction s1 = construction s)
    by (destruct Hs1 as [-> | ->]; reflexivity).
  assert (Hlines : forall ls, attempts_made (map Print ls) = 0).
  { induction ls as [|x ls IHls]; [reflexivity | exact IHls]. }
  assert (Hquiet : forall ls st2,
               out st2 = (out st1 ++ map Print ls)%list ->
               _explorer (self st2) = _explorer (self st1) ->
               (all_raised W s (out st1) (emitted st1 st2)
                /\ _explorer (self st2) = _explorer (self st1))
               \/ exists pre o post,
                   emitted st1 st2 = (pre ++ construction s :: post)%list
                   /\ built W s (out st1 ++ pre) = Return o
                   /\ truthy o = false
                   /\ all_raised W s (out st1 ++ pre ++ [construction s])
                        post
                   /\ _explorer (self st2) = Some o).
  { intros ls st2 Hout Hh. left. rewrite (@emitted_app _ _ _ Hout).
    split; [|exact Hh].
    apply (@all_raised_app_quiet W s (out st1) [] (map Print ls));
      [apply all_raised_nil | apply Hlines]. }
  assert (Hloop : forall st2 log2 ls,
             out st2 = (out st1 ++ log2)%list ->
             (all_raised W s1 (out st1) log2
              /\ _explorer (self st2) = _explorer (self st1))
             \/ (exists pre o post,
                   log2 = (pre ++ construction s1 :: post)%list
                   /\ built W s1 (out st1 ++ pre) = Return o
                   /\ truthy o = false
                   /\ all_raised W s1 (out st1 ++ pre ++ [construction s1])
                        post
                   /\ _explorer (self st2) = Some o) ->
             forall st3,
               out st3 = (out st2 ++ map Print ls)%list ->
               self st3 = self st2 ->
               (all_raised W s (out st1) (emitted st1 st3)
                /\ _explorer (self st3) = _explorer (self st1))
               \/ exists pre o post,
                   emitted st1 st3 = (pre ++ construction s :: post)%list
                   /\ built W s (out st1 ++ pre) = Return o
                   /\ truthy o = false
                   /\ all_raised W s (out st1 ++ pre ++ [construction s])
                        post
                   /\ _explorer (self st3) = Some o).
  { intros st2 log2 ls Hout2 Hcases st3 Hout3 Hself3.
    pose proof (Hlines ls) as Ht. set (t := map Print ls) in *.
    assert (Hout : out st3 = (out st1 ++ log2 ++ t)%list)
      by now rewrite Hout3, Hout2, app_assoc.
    rewrite (@emitted_app _ _ _ Hout), Hself3.
    destruct Hcases as [[Ha Hh] | (pre & o & post & E & Hb & Hf & Ha & Hh)].
    - left. split; [|exact Hh].
      apply all_raised_app_quiet; [now apply Hall | exact Ht].
    - right. exists pre, o, (post ++ t)%list.
      rewrite Hcons in E, Ha. rewrite Hbuilt in Hb.
      split; [now rewrite E, <- app_assoc|].
      split; [exact Hb|]. split; [exact Hf|]. split; [|exact Hh].
      apply all_raised_app_quiet; [now apply Hall | exact Ht]. }
  destruct r as [b|e].
  - destruct (negb _ || _).
    + intros _. cbn [snd].
      eapply (Hquiet [_]); reflexivity.
    + pose proof (@attempts_last_built W (seq 0 CONNECT_TRIES) st1) as Hlast.
      destruct (attempts W (seq 0 CONNECT_TRIES) st1) as [[[b'|]|e] st2];
        cbn [fst snd] in *.
      * intros [= ->].
        destruct Hlast as (log2 & Hout2 & Hcases); [discriminate|].
        apply (Hloop st2 log2 [] Hout2 Hcases);
          [cbn [map]; now rewrite app_nil_r | reflexivity].
      * intros _.
        destruct Hlast as (log2 & Hout2 & Hcases); [discriminate|].
        eapply (Hloop st2 log2 [_] Hout2 Hcases); reflexivity.
      * destruct (is_connect_error e); [|discriminate]. intros _.
        destruct Hlast as (log2 & Hout2 & Hcases); [discriminate|].
        cbn [snd].
        eapply (Hloop st2 log2 [_; _] Hout2 Hcases); [|reflexivity].
        cbn [self out map]. now rewrite <- app_assoc.
  - destruct (is_connect_error e); [|discriminate]. intros _. cbn [snd].
    eapply (Hquiet [_; _]); [|reflexivity].
    cbn [self out map]. now rewrite <- app_assoc.
Qed.

Lemma failed_connect_handle_witness :
  (fst (connect dead_world (fresh ".")) = Return false
   /\ exists o,
        truthy o = false
        /\ _explorer (self (snd (connect dead_world (fresh ".")))) = Some o)
  /\ (fst (connect stuck_world (connected ".")) = Return false
      /\ _explorer (self (snd (connect stuck_world (connected "."))))
         = Some board0).
Proof.
  split; (split; [reflexivity|]).
  - destruct (@failed_connect_handle dead_world (fresh ".") eq_refl)
      as (_ & _ & [[_ Habs] | (pre & o & post & _ & _ & Hf & _ & Hh)]).
    + discriminate Habs.
    + exists o. split; assumption.
  - destruct (@failed_connect_handle stuck_world (connected ".") eq_refl)
      as (_ & Hleft & [[_ Hh] | (pre & o & post & _ & Hb & _)]).
    + rewrite Hh. exact Hleft.
    + discriminate Hb.
Defined.
